(** * bunnystream-go: a shallow embedding of the client core

    The Go package [bunnystream] is embedded function by function.  Go
    strings and byte slices are byte sequences: both are [string] here (one
    [ascii] per byte), so the conversions [string(b)] and [[]byte(s)] are the
    identity.  Go's [int], [int64] and [time.Duration] are [Z].  A Go
    [map[string][]string] ([url.Values], [http.Header]) is a
    [gmap string (list string)].  A Go [error] result is an [option error]
    ([None] is [nil]); a pointer result that may be [nil] is an [option]. *)

From Stdlib Require Import ZArith NArith Ascii String List Lia DecimalString.
From stdpp Require Import base option list gmap strings sorting.

Open Scope string_scope.
Open Scope list_scope.
Open Scope Z_scope.

(** ** Standard-library helpers ([strings], [fmt]) *)

Module GoStrings.

(** [s[n:]]: the string without its first [n] bytes. *)
Fixpoint drop_bytes (n : nat) (s : string) : string :=
  match n, s with
  | O, _ => s
  | S n', String _ s' => drop_bytes n' s'
  | S _, EmptyString => EmptyString
  end.

(** [s[:n]] for [n <= len(s)]. *)
Fixpoint take_bytes (n : nat) (s : string) : string :=
  match n, s with
  | O, _ => EmptyString
  | S n', String c s' => String c (take_bytes n' s')
  | S _, EmptyString => EmptyString
  end.

(** [strings.HasSuffix]:
    [len(s) >= len(suffix) && s[len(s)-len(suffix):] == suffix]. *)
Definition HasSuffix (s suffix : string) : bool :=
  (String.length suffix <=? String.length s)%nat
  && String.eqb (drop_bytes (String.length s - String.length suffix) s) suffix.

(** [strings.Contains]. *)
Fixpoint Contains (s sub : string) : bool :=
  String.prefix sub s ||
  match s with
  | EmptyString => false
  | String _ s' => Contains s' sub
  end.

(** [strings.ContainsRune] for a one-byte rune, also the membership test of
    a cut set of ASCII characters. *)
Fixpoint contains_byte (c : ascii) (s : string) : bool :=
  match s with
  | EmptyString => false
  | String d s' => Ascii.eqb c d || contains_byte c s'
  end.

(** [strings.TrimRight(s, cutset)] for a cut set of ASCII characters: the
    trailing bytes that belong to the cut set are removed. *)
Fixpoint TrimRight (s cutset : string) : string :=
  match s with
  | EmptyString => EmptyString
  | String c s' =>
      match TrimRight s' cutset with
      | EmptyString =>
          if contains_byte c cutset then EmptyString
          else String c EmptyString
      | t => String c t
      end
  end.

(** The white space of [unicode.IsSpace], as UTF-8 byte sequences: the six
    ASCII characters, U+0085, U+00A0, U+1680, U+2000..U+200A, U+2028,
    U+2029, U+202F, U+205F and U+3000. *)
Definition bytes (l : list N) : string :=
  string_of_list_ascii (map ascii_of_N l).

Definition space_runes : list string :=
  map bytes
    [ [9]; [10]; [11]; [12]; [13]; [32];
      [194; 133]; [194; 160]; [225; 154; 128];
      [226; 128; 128]; [226; 128; 129]; [226; 128; 130]; [226; 128; 131];
      [226; 128; 132]; [226; 128; 133]; [226; 128; 134]; [226; 128; 135];
      [226; 128; 136]; [226; 128; 137]; [226; 128; 138];
      [226; 128; 168]; [226; 128; 169]; [226; 128; 175];
      [226; 129; 159]; [227; 128; 128] ]%N.

(** One leading rune of the set [runes] is removed, if there is one. *)
Fixpoint strip_rune (runes : list string) (s : string) : option string :=
  match runes with
  | [] => None
  | r :: rs =>
      if String.prefix r s then Some (drop_bytes (String.length r) s)
      else strip_rune rs s
  end.

(** [strings.TrimLeftFunc(s, f)] for the set of runes [runes]; every round
    removes at least one byte, so [String.length s] rounds are enough. *)
Fixpoint trim_left (fuel : nat) (runes : list string) (s : string) : string :=
  match fuel with
  | O => s
  | S fuel' =>
      match strip_rune runes s with
      | Some s' => trim_left fuel' runes s'
      | None => s
      end
  end.

Definition TrimLeftSpace (s : string) : string :=
  trim_left (String.length s) space_runes s.

(** The trailing runes are found from the end of the string: the reversed
    string is trimmed on the left of the reversed runes. *)
Definition TrimRightSpace (s : string) : string :=
  String.rev
    (trim_left (String.length s) (map String.rev space_runes) (String.rev s)).

(** [strings.TrimSpace]. *)
Definition TrimSpace (s : string) : string :=
  TrimRightSpace (TrimLeftSpace s).

(** [strings.Join]. *)
Fixpoint Join (elems : list string) (sep : string) : string :=
  match elems with
  | [] => EmptyString
  | [e] => e
  | e :: rest => e +:+ sep +:+ Join rest sep
  end.

(** [strings.ReplaceAll(s, old, new)] for a non-empty [old]: the
    occurrences of [old] are replaced from left to right and do not
    overlap.  [skip] counts the bytes of an occurrence that was already
    replaced and are still to be passed over. *)
Fixpoint replace_from (old new : string) (skip : nat) (s : string) : string :=
  match s with
  | EmptyString => EmptyString
  | String c s' =>
      match skip with
      | S k => replace_from old new k s'
      | O =>
          if String.prefix old s
          then new +:+ replace_from old new (Nat.pred (String.length old)) s'
          else String c (replace_from old new O s')
      end
  end.

Definition ReplaceAll (s old new : string) : string :=
  replace_from old new O s.

(** [fmt.Sprintf("%d", n)] and [strconv.FormatInt(n, 10)]. *)
Definition FormatInt (n : Z) : string :=
  NilZero.string_of_int (Z.to_int n).

(** [strconv.FormatBool]. *)
Definition FormatBool (b : bool) : string :=
  if b then "true" else "false".

End GoStrings.

Import GoStrings.

(** ** errors.go *)

Module Errors.

(** [APIError]: an error response of the API. *)
Record APIError : Type := mkAPIError {
  StatusCode : Z;
  Message : string;
  Body : string
}.

(** Go's [error] values of the package.  The predefined errors of errors.go,
    of the playback URLs and of the signed URLs are one constructor each. *)
Inductive error : Type :=
  | ErrInvalidConfig
  | ErrAPIKeyRequired
  | ErrLibraryIDRequired
  | ErrInvalidMaxRetries
  | ErrInvalidTimeout
  | ErrVideoNotFound
  | ErrUnauthorized
  | ErrRateLimited
  | ErrBadRequest
  | ErrInternalServer
  | ErrServiceUnavailable
  | ErrTitleRequired
  | ErrVideoIDRequired
  | ErrCDNHostnameRequired
  | ErrEmbedTokenKeyRequired
  | ErrCDNTokenKeyRequired
  (** a predefined error that is used by its name and declared in none of the
      files at hand *)
  | Declared (name : string)
  (** an [APIError] pointer *)
  | ErrAPI (e : APIError)
  (** [fmt.Errorf("<context>: %w", err)] *)
  | Wrap (context : string) (err : error)
  (** [fmt.Errorf("%w: %w", e1, e2)] *)
  | Wrap2 (e1 e2 : error)
  (** an error value made by a collaborator (transport, body reader) *)
  | External (msg : string).

(** Modelled from the spec: the declaration of [ErrForbidden] is in none of
    the files at hand; [checkResponseError] returns it for 403, the tests
    compare with it, and it is the "forbidden sentinel" of the status
    classification (README.md: "API returned 403"). *)
Definition ErrForbidden : error := Declared "ErrForbidden".

(** [parseErrorMessage]: the body, cut after 200 bytes and marked with an
    ellipsis when it is longer. *)
Definition parseErrorMessage (body : string) : string :=
  if (200 <? Z.of_nat (String.length body))
  then take_bytes 200 body +:+ "..."
  else body.

(** [newAPIError]. *)
Definition newAPIError (statusCode : Z) (body : string) : APIError :=
  {| StatusCode := statusCode;
     Body := body;
     Message := parseErrorMessage body |}.

End Errors.

Import Errors.

(** ** net/http, as far as the client uses it *)

Module Http.

(** [http.Header] *)
Abbreviation Header := (gmap string (list string)).

(** [url.URL], with the fields the package reads or writes. *)
Record URL : Type := mkURL {
  Scheme : string;
  Host : string;
  Path : string;
  RawQuery : string
}.

(** [http.Request] *)
Record Request : Type := mkRequest {
  Method : string;
  ReqURL : URL;
  ReqHeader : Header;
  ReqBody : string
}.

(** What [io.ReadAll] gets out of a response body: the bytes read, and the
    error that ended the reading, if any. *)
Record Reader : Type := mkReader {
  read_data : string;
  read_err : option error
}.

(** [io.ReadAll] *)
Definition ReadAll (r : Reader) : string * option error :=
  (read_data r, read_err r).

(** [http.Response] *)
Record Response : Type := mkResponse {
  StatusCode : Z;
  Header_ : Header;
  Body : Reader
}.

(** The two outcomes of [http.Client.Do]: an error (with or without a
    response, which the caller may ignore), or a response and no error. *)
Inductive DoResult : Type :=
  | DoErr (resp : option Response) (err : error)
  | DoOk (resp : Response).

(** [http.Client]: its timeout and what its transport answers. *)
Record Client : Type := mkClient {
  Timeout : Z;
  Do : Request -> DoResult
}.

Definition StatusOK : Z := 200.
Definition StatusCreated : Z := 201.
Definition StatusAccepted : Z := 202.
Definition StatusNoContent : Z := 204.
Definition StatusBadRequest : Z := 400.
Definition StatusUnauthorized : Z := 401.
Definition StatusForbidden : Z := 403.
Definition StatusNotFound : Z := 404.
Definition StatusTooManyRequests : Z := 429.
Definition StatusInternalServerError : Z := 500.
Definition StatusServiceUnavailable : Z := 503.

End Http.

(** ** The response wrapper *)

Module Resp.

(** [Response]: status code, headers and the raw body. *)
Record Response : Type := mkResponse {
  StatusCode : Z;
  Headers : Http.Header;
  Body : string
}.

(** [newResponse]: the body is read to its end; a read error discards what
    was read. *)
Definition newResponse (resp : Http.Response) : option Response * option error :=
  let '(respBody, err) := Http.ReadAll (Http.Body resp) in
  match err with
  | Some e => (None, Some e)
  | None =>
      (Some {| StatusCode := Http.StatusCode resp;
               Headers := Http.Header_ resp;
               Body := respBody |}, None)
  end.

End Resp.

(** ** The configuration *)

Module Cfg.

Definition DefaultMaxRetries : Z := 3.
(** [60 * time.Second], in nanoseconds *)
Definition DefaultTimeout : Z := 60 * 1000000000.
Definition DefaultUserAgent : string := "bunnystream-go/0.1.0".
Definition DefaultBaseURL : string := "https://video.bunnycdn.com".

(** [Config].  [Logger] is a pointer that the package never follows: only
    whether it is set is kept.  The mutex guards [init] and has no state of
    its own in a sequential run. *)
Record Config : Type := mkConfig {
  Logger : option unit;
  APIKey : string;
  LibraryID : string;
  CDNHostname : string;
  EmbedTokenKey : string;
  CDNTokenKey : string;
  UserAgent : string;
  BaseURL : string;
  HTTPClient : option Http.Client;
  MaxRetries : Z;
  Timeout : Z
}.

(** The client that [init] makes when none is given: [&http.Client{Timeout:
    c.Timeout}], whose transport is the default one, [transport] here. *)
Definition default_client (transport : Http.Request -> Http.DoResult)
    (timeout : Z) : Http.Client :=
  {| Http.Timeout := timeout; Http.Do := transport |}.

(** [Config.init]: the missing fields get their default values, one
    after the other; the client is made from the time limit set before. *)
Definition init (transport : Http.Request -> Http.DoResult) (c : Config) : Config :=
  let userAgent :=
    if String.eqb (UserAgent c) "" then DefaultUserAgent else UserAgent c in
  let maxRetries :=
    if MaxRetries c <? 1 then DefaultMaxRetries else MaxRetries c in
  let timeout :=
    if Timeout c <? 1 then DefaultTimeout else Timeout c in
  let baseURL :=
    if String.eqb (BaseURL c) "" then DefaultBaseURL else BaseURL c in
  let httpClient :=
    match HTTPClient c with
    | None => Some (default_client transport timeout)
    | Some cl => Some cl
    end in
  {| Logger := Logger c;
     APIKey := APIKey c;
     LibraryID := LibraryID c;
     CDNHostname := CDNHostname c;
     EmbedTokenKey := EmbedTokenKey c;
     CDNTokenKey := CDNTokenKey c;
     UserAgent := userAgent;
     BaseURL := baseURL;
     HTTPClient := httpClient;
     MaxRetries := maxRetries;
     Timeout := timeout |}.

(** [Config.validate] *)
Definition validate (c : Config) : option error :=
  if String.eqb (APIKey c) "" then Some (Wrap2 ErrInvalidConfig ErrAPIKeyRequired)
  else if String.eqb (LibraryID c) "" then Some (Wrap2 ErrInvalidConfig ErrLibraryIDRequired)
  else None.

End Cfg.

(** ** The client core *)

Module Core.

(** [Client].  [config] is the configuration after [init]; [httpClient] is
    a pointer that [init] has set. *)
Record Client : Type := mkClient {
  config : Cfg.Config;
  httpClient : option Http.Client;
  baseURL : string;
  libraryID : string;
  apiKey : string
}.

(** [NewClient]: a missing configuration and an invalid one are refused;
    a valid one gets its defaults and is kept by the client. *)
Definition NewClient (transport : Http.Request -> Http.DoResult)
    (cfg : option Cfg.Config) : option Client * option error :=
  match cfg with
  | None => (None, Some ErrInvalidConfig)
  | Some cfg0 =>
      match Cfg.validate cfg0 with
      | Some err => (None, Some err)
      | None =>
          let cfg1 := Cfg.init transport cfg0 in
          (Some {| config := cfg1;
                   httpClient := Cfg.HTTPClient cfg1;
                   baseURL := Cfg.BaseURL cfg1;
                   libraryID := Cfg.LibraryID cfg1;
                   apiKey := Cfg.APIKey cfg1 |}, None)
      end
  end.

(** [Client.checkResponseError].  The receiver is not used. *)
Definition checkResponseError (statusCode : Z) (body : string) : option error :=
  if (statusCode =? Http.StatusOK) || (statusCode =? Http.StatusCreated)
     || (statusCode =? Http.StatusAccepted) || (statusCode =? Http.StatusNoContent)
  then None
  else if statusCode =? Http.StatusBadRequest then Some (ErrAPI (newAPIError statusCode body))
  else if statusCode =? Http.StatusUnauthorized then Some ErrUnauthorized
  else if statusCode =? Http.StatusNotFound then Some ErrVideoNotFound
  else if statusCode =? Http.StatusTooManyRequests then Some ErrRateLimited
  else if statusCode =? Http.StatusInternalServerError then Some ErrInternalServer
  else if statusCode =? Http.StatusServiceUnavailable then Some ErrServiceUnavailable
  else if statusCode =? Http.StatusForbidden then Some ErrForbidden
  else Some (ErrAPI (newAPIError statusCode body)).

(** What a call does: it returns, or the program panics (a [nil] pointer is
    followed). *)
Inductive outcome (A : Type) : Type :=
  | Panic
  | Return (a : A).
Arguments Panic {A}.
Arguments Return {A} a.

(** [Client.doRequest].  Closing the body (the deferred call) releases the
    connection and changes nothing that is returned. *)
Definition doRequest (c : Client) (req : Http.Request)
    : outcome (option Resp.Response * option error) :=
  match httpClient c with
  | None => Panic
  | Some cl =>
      match Http.Do cl req with
      | Http.DoErr _ err =>
          Return (None, Some (Wrap "failed to perform request" err))
      | Http.DoOk resp =>
          match Resp.newResponse resp with
          | (_, Some err) =>
              Return (None, Some (Wrap "failed to read response body" err))
          | (None, None) => Panic
          | (Some response, None) =>
              match checkResponseError (Resp.StatusCode response)
                      (Resp.Body response) with
              | Some err => Return (Some response, Some err)
              | None => Return (Some response, None)
              end
          end
      end
  end.

End Core.

(** ** crypto/sha256 and encoding/base64 *)

Module Sha256.

(** A byte is a [Z] in [0, 256); a word is a [Z] in [0, 2^32). *)
Definition byte_of_ascii (c : ascii) : Z := Z.of_N (N_of_ascii c).

(** [[]byte(s)] *)
Definition bytes_of_string (s : string) : list Z :=
  map byte_of_ascii (list_ascii_of_string s).

Definition w32 (x : Z) : Z := x mod 2 ^ 32.
Definition add32 (x y : Z) : Z := w32 (x + y).
Definition rotr (n x : Z) : Z :=
  Z.lor (Z.shiftr x n) (w32 (Z.shiftl x (32 - n))).
Definition shr (n x : Z) : Z := Z.shiftr x n.
Definition not32 (x : Z) : Z := 2 ^ 32 - 1 - x.

Definition Ch (x y z : Z) : Z := Z.lxor (Z.land x y) (Z.land (not32 x) z).
Definition Maj (x y z : Z) : Z :=
  Z.lxor (Z.lxor (Z.land x y) (Z.land x z)) (Z.land y z).
Definition Sigma0 (x : Z) : Z := Z.lxor (Z.lxor (rotr 2 x) (rotr 13 x)) (rotr 22 x).
Definition Sigma1 (x : Z) : Z := Z.lxor (Z.lxor (rotr 6 x) (rotr 11 x)) (rotr 25 x).
Definition sigma0 (x : Z) : Z := Z.lxor (Z.lxor (rotr 7 x) (rotr 18 x)) (shr 3 x).
Definition sigma1 (x : Z) : Z := Z.lxor (Z.lxor (rotr 17 x) (rotr 19 x)) (shr 10 x).

(** The first sixty-four primes. *)
Definition primes : list Z :=
  [ 2; 3; 5; 7; 11; 13; 17; 19; 23; 29; 31; 37; 41; 43; 47; 53;
    59; 61; 67; 71; 73; 79; 83; 89; 97; 101; 103; 107; 109; 113; 127; 131;
    137; 139; 149; 151; 157; 163; 167; 173; 179; 181; 191; 193; 197; 199;
    211; 223; 227; 229; 233; 239; 241; 251; 257; 263; 269; 271; 277; 281;
    283; 293; 307; 311 ].

(** The integer cube root of a number below [2^108], bit by bit from the
    top. *)
Definition icbrt (n : Z) : Z :=
  fold_left
    (fun r i => let r' := r + 2 ^ i in if r' ^ 3 <=? n then r' else r)
    (map Z.of_nat (rev (seq 0 36))) 0.

(** The round constants: the first 32 bits of the fractional parts of the
    cube roots of the primes. *)
Definition K : list Z :=
  map (fun p => w32 (icbrt (p * 2 ^ 96))) primes.

(** The initial hash value: the first 32 bits of the fractional parts of the
    square roots of the first eight primes. *)
Definition H0 : list Z :=
  map (fun p => w32 (Z.sqrt (p * 2 ^ 64))) (firstn 8 primes).

(** The [n] low bytes of [x], most significant first. *)
Fixpoint be_bytes (n : nat) (x : Z) : list Z :=
  match n with
  | O => []
  | S n' => (Z.shiftr x (8 * Z.of_nat n')) mod 256 :: be_bytes n' x
  end.

(** The message, the byte [0x80], zero bytes up to 56 modulo 64, and the
    length of the message in bits on eight bytes. *)
Definition pad (msg : list Z) : list Z :=
  let len := Z.of_nat (length msg) in
  msg ++ [128] ++ repeat 0 (Z.to_nat ((55 - len) mod 64)) ++ be_bytes 8 (8 * len).

Fixpoint be_words (l : list Z) : list Z :=
  match l with
  | a :: b :: c :: d :: r =>
      Z.lor (Z.lor (Z.lor (Z.shiftl a 24) (Z.shiftl b 16)) (Z.shiftl c 8)) d
      :: be_words r
  | _ => []
  end.

(** The message schedule: [n] words, from a window of the last sixteen. *)
Fixpoint schedule (n : nat) (win : list Z) : list Z :=
  match n, win with
  | S n', w0 :: rest =>
      let w :=
        add32 (add32 (add32 (sigma1 (nth 14 win 0)) (nth 9 win 0))
                     (sigma0 (nth 1 win 0))) w0 in
      w0 :: schedule n' (rest ++ [w])
  | _, _ => []
  end.

(** One round on the working variables [a .. h]. *)
Definition round (st : list Z) (kw : Z * Z) : list Z :=
  match st with
  | [a; b; c; d; e; f; g; h] =>
      let t1 := add32 (add32 (add32 (add32 h (Sigma1 e)) (Ch e f g)) (fst kw)) (snd kw) in
      let t2 := add32 (Sigma0 a) (Maj a b c) in
      [add32 t1 t2; a; b; c; add32 d t1; e; f; g]
  | _ => st
  end.

(** One block of sixteen words is mixed into the hash value. *)
Definition compress (hash block : list Z) : list Z :=
  let st := fold_left round (combine K (schedule 64 block)) hash in
  map (fun p => add32 (fst p) (snd p)) (combine hash st).

(** The blocks are mixed in one after the other; every round takes sixteen
    words. *)
Fixpoint blocks (fuel : nat) (hash words : list Z) : list Z :=
  match fuel, words with
  | S fuel', _ :: _ => blocks fuel' (compress hash (firstn 16 words)) (skipn 16 words)
  | _, _ => hash
  end.

(** [sha256.Sum256]: the 32 bytes of the digest. *)
Definition Sum256 (msg : list Z) : list Z :=
  let words := be_words (pad msg) in
  flat_map (be_bytes 4) (blocks (length words) H0 words).

End Sha256.

Module Base64.

Definition encodeStd : string :=
  "ABCDEFGHIJKLMNOPQRSTUVWXYZabcdefghijklmnopqrstuvwxyz0123456789+/".

(** The character of the six-bit value [v]. *)
Definition enc (v : Z) : ascii :=
  match String.get (Z.to_nat v) encodeStd with
  | Some c => c
  | None => "="%char
  end.

(** [base64.StdEncoding.EncodeToString]: three bytes make four characters;
    the last group is padded with ['=']. *)
Fixpoint EncodeToString (src : list Z) : string :=
  match src with
  | [] => EmptyString
  | [a] =>
      String (enc (Z.shiftr a 2))
        (String (enc (Z.shiftl (Z.land a 3) 4)) "==")
  | [a; b] =>
      String (enc (Z.shiftr a 2))
        (String (enc (Z.lor (Z.shiftl (Z.land a 3) 4) (Z.shiftr b 4)))
           (String (enc (Z.shiftl (Z.land b 15) 2)) "="))
  | a :: b :: c :: r =>
      String (enc (Z.shiftr a 2))
        (String (enc (Z.lor (Z.shiftl (Z.land a 3) 4) (Z.shiftr b 4)))
           (String (enc (Z.lor (Z.shiftl (Z.land b 15) 2) (Z.shiftr c 6)))
              (String (enc (Z.land c 63)) (EncodeToString r))))
  end.

(** [hex.EncodeToString] *)
Definition hexdigit (v : Z) : ascii :=
  match String.get (Z.to_nat v) "0123456789abcdef" with
  | Some c => c
  | None => "0"%char
  end.

Fixpoint HexEncodeToString (src : list Z) : string :=
  match src with
  | [] => EmptyString
  | a :: r => String (hexdigit (Z.shiftr a 4)) (String (hexdigit (Z.land a 15)) (HexEncodeToString r))
  end.

End Base64.

(** ** net/url: query strings *)

Module Url.

(** [url.Values] *)
Abbreviation Values := (gmap string (list string)).

Definition in_range (lo hi c : ascii) : bool :=
  (N_of_ascii lo <=? N_of_ascii c)%N && (N_of_ascii c <=? N_of_ascii hi)%N.

Definition is_alnum (c : ascii) : bool :=
  in_range "a" "z" c || in_range "A" "Z" c || in_range "0" "9" c.

(** [shouldEscape(c, encodeQueryComponent)]: only letters, digits and the
    marks [-_.~] are kept as they are. *)
Definition shouldEscape (c : ascii) : bool :=
  if is_alnum c then false
  else if contains_byte c "-_.~" then false
  else true.

Definition upperhex (v : N) : ascii :=
  match String.get (N.to_nat v) "0123456789ABCDEF" with
  | Some c => c
  | None => "0"%char
  end.

(** [url.QueryEscape] *)
Fixpoint QueryEscape (s : string) : string :=
  match s with
  | EmptyString => EmptyString
  | String c s' =>
      if shouldEscape c then
        if Ascii.eqb c " " then String "+" (QueryEscape s')
        else String "%" (String (upperhex (N_of_ascii c / 16))
               (String (upperhex (N_of_ascii c mod 16)) (QueryEscape s')))
      else String c (QueryEscape s')
  end.

Definition ishex (c : ascii) : bool :=
  in_range "0" "9" c || in_range "a" "f" c || in_range "A" "F" c.

Definition unhex (c : ascii) : N :=
  if in_range "0" "9" c then N_of_ascii c - N_of_ascii "0"
  else if in_range "a" "f" c then N_of_ascii c - N_of_ascii "a" + 10
  else if in_range "A" "F" c then N_of_ascii c - N_of_ascii "A" + 10
  else 0.

(** [url.QueryUnescape]: [None] is the escape error of a ['%'] that is not
    followed by two hexadecimal digits. *)
Fixpoint QueryUnescape (s : string) : option string :=
  match s with
  | EmptyString => Some EmptyString
  | String c s' =>
      if Ascii.eqb c "%" then
        match s' with
        | String a (String b r) =>
            if ishex a && ishex b
            then String (ascii_of_N (unhex a * 16 + unhex b)) <$> QueryUnescape r
            else None
        | _ => None
        end
      else if Ascii.eqb c "+" then String " "%char <$> QueryUnescape s'
      else String c <$> QueryUnescape s'
  end.

(** [strings.Cut(s, sep)] for a one-byte separator: the text before the
    first separator and the text after it; the whole of [s] and the empty
    string when there is none. *)
Fixpoint Cut (s : string) (sep : ascii) : string * string :=
  match s with
  | EmptyString => (EmptyString, EmptyString)
  | String c s' =>
      if Ascii.eqb c sep then (EmptyString, s')
      else let '(before, after) := Cut s' sep in (String c before, after)
  end.

(** The body of the loop of [parseQuery] on one piece: a piece with a
    semicolon, an empty piece and a piece whose key or value does not
    unescape are passed over; otherwise the value is appended to the values
    of the key. *)
Definition parsePiece (m : Values) (piece : string) : Values :=
  if contains_byte ";" piece then m
  else if String.eqb piece "" then m
  else
    let '(key, value) := Cut piece "=" in
    match QueryUnescape key with
    | None => m
    | Some key' =>
        match QueryUnescape value with
        | None => m
        | Some value' => <[key' := default [] (m !! key') ++ [value']]> m
        end
    end.

(** The loop of [parseQuery]: while the query is not empty, a piece is cut
    off at the first ['&'] and parsed.  Every round takes at least one byte
    off the query, so [String.length query] rounds are enough. *)
Fixpoint parseQuery (fuel : nat) (m : Values) (query : string) : Values :=
  match fuel with
  | O => m
  | S fuel' =>
      if String.eqb query "" then m
      else let '(key, rest) := Cut query "&" in
           parseQuery fuel' (parsePiece m key) rest
  end.

(** [url.ParseQuery], without its error: [URL.Query] drops it. *)
Definition ParseQuery (query : string) : Values :=
  parseQuery (String.length query) ∅ query.

(** [Values.Set] *)
Definition Set_ (v : Values) (key value : string) : Values :=
  <[key := [value]]> v.

(** [Values.Get] *)
Definition Get (v : Values) (key : string) : string :=
  match v !! key with
  | Some (x :: _) => x
  | _ => EmptyString
  end.

(** The keys of a map, in ascending order: [for k := range v] followed by
    [sort.Strings(keys)]. *)
Definition sorted_keys (v : Values) : list string :=
  merge_sort String.le (map fst (map_to_list v)).

(** The pairs [key=value] that [Encode] writes for one key. *)
Definition encode_key (v : Values) (k : string) : list string :=
  map (fun x => QueryEscape k +:+ "=" +:+ QueryEscape x) (default [] (v !! k)).

(** [Values.Encode]: the pairs sorted by key, joined with ['&']. *)
Definition Encode (v : Values) : string :=
  Join (flat_map (encode_key v) (sorted_keys v)) "&".

(** [URL.Query] *)
Definition Query (u : Http.URL) : Values := ParseQuery (Http.RawQuery u).

End Url.

(** ** Playback URLs *)

Module GetUrl.

(** [Client.cdnBase] *)
Definition cdnBase (c : Core.Client) (videoID : string) : string * option error :=
  if String.eqb (Cfg.CDNHostname (Core.config c)) ""
  then (EmptyString, Some ErrCDNHostnameRequired)
  else
    let host := TrimRight (Cfg.CDNHostname (Core.config c)) "/" in
    ("https://" +:+ host +:+ "/" +:+ videoID, None).

(** [Client.HLSPlaylistURL] *)
Definition HLSPlaylistURL (c : Core.Client) (videoID : string) : string * option error :=
  if String.eqb (TrimSpace videoID) ""
  then (EmptyString, Some ErrVideoIDRequired)
  else
    match cdnBase c videoID with
    | (_, Some err) => (EmptyString, Some err)
    | (base, None) => (base +:+ "/playlist.m3u8", None)
    end.

End GetUrl.

(** ** Signed URLs *)

Module Signed.

(** [SignedURLOptions] *)
Record SignedURLOptions : Type := mkOptions {
  UserIP : string;
  CountriesAllowed : string;
  CountriesBlocked : string
}.

(** [SignedURLOption]: a function that sets one field of the options. *)
Definition SignedURLOption : Type := SignedURLOptions -> SignedURLOptions.

Definition WithUserIP (ip : string) : SignedURLOption :=
  fun o => {| UserIP := ip;
              CountriesAllowed := CountriesAllowed o;
              CountriesBlocked := CountriesBlocked o |}.

Definition WithCountriesAllowed (countries : string) : SignedURLOption :=
  fun o => {| UserIP := UserIP o;
              CountriesAllowed := countries;
              CountriesBlocked := CountriesBlocked o |}.

Definition WithCountriesBlocked (countries : string) : SignedURLOption :=
  fun o => {| UserIP := UserIP o;
              CountriesAllowed := CountriesAllowed o;
              CountriesBlocked := countries |}.

(** [options := &SignedURLOptions{}; for _, opt := range opts { opt(options) }] *)
Definition apply_options (opts : list SignedURLOption) : SignedURLOptions :=
  fold_left (fun o opt => opt o) opts
    {| UserIP := ""; CountriesAllowed := ""; CountriesBlocked := "" |}.

(** [signCDNToken].  It returns no error. *)
Definition signCDNToken (key path : string) (expiry : Z) (opts : SignedURLOptions)
    : string * option error :=
  let extraParams : Url.Values := ∅ in
  let extraParams :=
    if negb (String.eqb (CountriesAllowed opts) "")
    then Url.Set_ extraParams "token_countries" (CountriesAllowed opts)
    else extraParams in
  let extraParams :=
    if negb (String.eqb (CountriesBlocked opts) "")
    then Url.Set_ extraParams "token_countries_blocked" (CountriesBlocked opts)
    else extraParams in
  let keys := Url.sorted_keys extraParams in
  let pairs := map (fun k => k +:+ "=" +:+ Url.Get extraParams k) keys in
  let paramStr := Join pairs "&" in
  let hashable := key +:+ path +:+ FormatInt expiry in
  let hashable :=
    if negb (String.eqb (UserIP opts) "") then hashable +:+ UserIP opts
    else hashable in
  let hashable :=
    if negb (String.eqb paramStr "") then hashable +:+ paramStr
    else hashable in
  let raw := Sha256.Sum256 (Sha256.bytes_of_string hashable) in
  let token := Base64.EncodeToString raw in
  let token := ReplaceAll token (String "010" "") "" in
  let token := ReplaceAll token "+" "-" in
  let token := ReplaceAll token "/" "_" in
  let token := ReplaceAll token "=" "" in
  (token, None).

(** [time.Now().Add(ttl).Unix()], for a clock that reads [now] nanoseconds
    since the Unix epoch: whole seconds, rounded down. *)
Definition expiry_at (now ttl : Z) : Z := (now + ttl) / 1000000000.

(** [Client.SignedHLSURL]; [now] is what [time.Now()] reads. *)
Definition SignedHLSURL (c : Core.Client) (now : Z) (videoID : string) (ttl : Z)
    (opts : list SignedURLOption) : string * option error :=
  if String.eqb (TrimSpace videoID) "" then (EmptyString, Some ErrVideoIDRequired)
  else if String.eqb (Cfg.CDNHostname (Core.config c)) ""
  then (EmptyString, Some ErrCDNHostnameRequired)
  else if String.eqb (Cfg.CDNTokenKey (Core.config c)) ""
  then (EmptyString, Some ErrCDNTokenKeyRequired)
  else
    let options := apply_options opts in
    let dirPath := "/" +:+ videoID +:+ "/" in
    let filePath := "/" +:+ videoID +:+ "/playlist.m3u8" in
    let expiry := expiry_at now ttl in
    match signCDNToken (Cfg.CDNTokenKey (Core.config c)) dirPath expiry options with
    | (_, Some err) => (EmptyString, Some err)
    | (token, None) =>
        let host := TrimRight (Cfg.CDNHostname (Core.config c)) "/" in
        let signed :=
          "https://" +:+ host +:+ "/bcdn_token=" +:+ token +:+ "&expires="
            +:+ FormatInt expiry +:+ "&token_path=" +:+ Url.QueryEscape dirPath
            +:+ filePath in
        (signed, None)
    end.

End Signed.

(** ** query_builder.go *)

Module QB.

(** [queryBuilder].  [req] is the request that the builder's pointer
    designates, as it is now: the caller holds the same pointer, so what a
    method writes to [req] is what the caller sees.  [values] is the
    builder's own map. *)
Record queryBuilder : Type := mkBuilder {
  req : Http.Request;
  values : Url.Values
}.

(** [buildQuery]: the values are parsed from the query string of the
    request into a new map. *)
Definition buildQuery (r : Http.Request) : queryBuilder :=
  {| req := r; values := Url.Query (Http.ReqURL r) |}.

(** [setBool]; a [nil] pointer is [None]. *)
Definition setBool (key : string) (v : option bool) (q : queryBuilder) : queryBuilder :=
  match v with
  | Some b => {| req := req q; values := Url.Set_ (values q) key (FormatBool b) |}
  | None => q
  end.

(** [setString] *)
Definition setString (key v : string) (q : queryBuilder) : queryBuilder :=
  if negb (String.eqb (TrimSpace v) "")
  then {| req := req q; values := Url.Set_ (values q) key v |}
  else q.

(** [setStrings]; a [nil] slice and an empty one are both [[]]. *)
Definition setStrings (key : string) (v : list string) (q : queryBuilder) : queryBuilder :=
  if (0 <? length v)%nat
  then {| req := req q; values := Url.Set_ (values q) key (Join v ",") |}
  else q.

(** [req.URL.RawQuery = s] *)
Definition set_RawQuery (r : Http.Request) (s : string) : Http.Request :=
  {| Http.Method := Http.Method r;
     Http.ReqURL :=
       {| Http.Scheme := Http.Scheme (Http.ReqURL r);
          Http.Host := Http.Host (Http.ReqURL r);
          Http.Path := Http.Path (Http.ReqURL r);
          Http.RawQuery := s |};
     Http.ReqHeader := Http.ReqHeader r;
     Http.ReqBody := Http.ReqBody r |}.

(** [apply]: the encoded values become the query string of the request. *)
Definition apply (q : queryBuilder) : queryBuilder :=
  {| req := set_RawQuery (req q) (Url.Encode (values q)); values := values q |}.

(** One call of a setter, and a chain of calls. *)
Inductive setter : Type :=
  | SetBool (key : string) (v : option bool)
  | SetString (key v : string)
  | SetStrings (key : string) (v : list string).

Definition call (q : queryBuilder) (s : setter) : queryBuilder :=
  match s with
  | SetBool key v => setBool key v q
  | SetString key v => setString key v q
  | SetStrings key v => setStrings key v q
  end.

Definition chain (q : queryBuilder) (calls : list setter) : queryBuilder :=
  fold_left call calls q.

(** The query string of the request behind the builder's pointer. *)
Definition rawQuery (q : queryBuilder) : string :=
  Http.RawQuery (Http.ReqURL (req q)).

End QB.

(** ** errors: what [errors.Is] finds *)

Module ErrIs.

(** Equality of error values.  Two [APIError] pointers are equal in Go when
    they are the same pointer; here errors are compared by what they hold, so
    [Is] is to be read for targets that are predefined errors. *)
Definition error_eq_dec (x y : error) : {x = y} + {x <> y}.
Proof.
  revert y. induction x; intros []; try (right; discriminate); try (left; reflexivity).
  - destruct (string_dec name name0) as [->|]; [left | right]; congruence.
  - destruct e as [s m b], e0 as [s0 m0 b0].
    destruct (Z.eq_dec s s0) as [->|]; [|right; congruence].
    destruct (string_dec m m0) as [->|]; [|right; congruence].
    destruct (string_dec b b0) as [->|]; [left | right]; congruence.
  - destruct (string_dec context context0) as [->|]; [|right; congruence].
    destruct (IHx err) as [->|]; [left | right]; congruence.
  - destruct (IHx1 e1) as [->|]; [|right; congruence].
    destruct (IHx2 e2) as [->|]; [left | right]; congruence.
  - destruct (string_dec msg msg0) as [->|]; [left | right]; congruence.
Defined.

(** [errors.Is(err, target)]: the error is the target, or an error that it
    wraps ([%w], once or twice in a format) is. *)
Fixpoint Is (err target : error) : bool :=
  (if error_eq_dec err target then true else false)
  || match err with
     | Wrap _ inner => Is inner target
     | Wrap2 e1 e2 => Is e1 target || Is e2 target
     | _ => false
     end.

End ErrIs.

(** ** The other playback URLs *)

Module Playback.

(** Modelled from the spec: the declaration of [ErrResolutionRequired] is in
    none of the files at hand; [MP4URL] and [SignedMP4URL] return it for an
    empty resolution, the tests compare with it (README.md: "empty resolution
    passed to MP4URL / SignedMP4URL"), and the specification names it the
    "resolution required" failure. *)
Definition ErrResolutionRequired : error := Declared "ErrResolutionRequired".

(** [Client.EmbedURL] *)
Definition EmbedURL (c : Core.Client) (videoID : string) : string * option error :=
  if String.eqb (TrimSpace videoID) ""
  then (EmptyString, Some ErrVideoIDRequired)
  else ("https://iframe.mediadelivery.net/embed/" +:+ Core.libraryID c
          +:+ "/" +:+ videoID, None).

(** [Client.DirectPlayURL] *)
Definition DirectPlayURL (c : Core.Client) (videoID : string) : string * option error :=
  if String.eqb (TrimSpace videoID) ""
  then (EmptyString, Some ErrVideoIDRequired)
  else ("https://video.bunnycdn.com/play/" +:+ Core.libraryID c
          +:+ "/" +:+ videoID, None).

(** [Client.ThumbnailURL] *)
Definition ThumbnailURL (c : Core.Client) (videoID : string) : string * option error :=
  if String.eqb (TrimSpace videoID) ""
  then (EmptyString, Some ErrVideoIDRequired)
  else
    match GetUrl.cdnBase c videoID with
    | (_, Some err) => (EmptyString, Some err)
    | (base, None) => (base +:+ "/thumbnail.jpg", None)
    end.

(** [Client.PreviewAnimationURL] *)
Definition PreviewAnimationURL (c : Core.Client) (videoID : string)
    : string * option error :=
  if String.eqb (TrimSpace videoID) ""
  then (EmptyString, Some ErrVideoIDRequired)
  else
    match GetUrl.cdnBase c videoID with
    | (_, Some err) => (EmptyString, Some err)
    | (base, None) => (base +:+ "/preview.webp", None)
    end.

(** [Client.MP4URL]; a resolution is a string. *)
Definition MP4URL (c : Core.Client) (videoID r : string) : string * option error :=
  if String.eqb (TrimSpace videoID) ""
  then (EmptyString, Some ErrVideoIDRequired)
  else if String.eqb r ""
  then (EmptyString, Some ErrResolutionRequired)
  else
    match GetUrl.cdnBase c videoID with
    | (_, Some err) => (EmptyString, Some err)
    | (base, None) => (base +:+ "/play_" +:+ r +:+ ".mp4", None)
    end.

End Playback.

(** ** The other signed URLs *)

Module SignedMore.

Import Signed.

(** [Client.SignedEmbedURL]; [now] is what [time.Now()] reads. *)
Definition SignedEmbedURL (c : Core.Client) (now : Z) (videoID : string) (ttl : Z)
    : string * option error :=
  if String.eqb (TrimSpace videoID) "" then (EmptyString, Some ErrVideoIDRequired)
  else if String.eqb (Cfg.EmbedTokenKey (Core.config c)) ""
  then (EmptyString, Some ErrEmbedTokenKeyRequired)
  else
    let expiry := expiry_at now ttl in
    let hash :=
      Sha256.Sum256
        (Sha256.bytes_of_string
           (Cfg.EmbedTokenKey (Core.config c) +:+ videoID +:+ FormatInt expiry)) in
    let token := Base64.HexEncodeToString hash in
    let base :=
      "https://iframe.mediadelivery.net/embed/" +:+ Core.libraryID c
        +:+ "/" +:+ videoID in
    (base +:+ "?token=" +:+ token +:+ "&expires=" +:+ FormatInt expiry, None).

(** [Client.SignedMP4URL] *)
Definition SignedMP4URL (c : Core.Client) (now : Z) (videoID r : string) (ttl : Z)
    (opts : list SignedURLOption) : string * option error :=
  if String.eqb (TrimSpace videoID) "" then (EmptyString, Some ErrVideoIDRequired)
  else if String.eqb r "" then (EmptyString, Some Playback.ErrResolutionRequired)
  else if String.eqb (Cfg.CDNHostname (Core.config c)) ""
  then (EmptyString, Some ErrCDNHostnameRequired)
  else if String.eqb (Cfg.CDNTokenKey (Core.config c)) ""
  then (EmptyString, Some ErrCDNTokenKeyRequired)
  else
    let options := apply_options opts in
    let filePath := "/" +:+ videoID +:+ "/play_" +:+ r +:+ ".mp4" in
    let expiry := expiry_at now ttl in
    match signCDNToken (Cfg.CDNTokenKey (Core.config c)) filePath expiry options with
    | (_, Some err) => (EmptyString, Some err)
    | (token, None) =>
        let host := TrimRight (Cfg.CDNHostname (Core.config c)) "/" in
        let base := "https://" +:+ host +:+ filePath in
        let params : Url.Values := ∅ in
        let params := Url.Set_ params "token" token in
        let params := Url.Set_ params "expires" (FormatInt expiry) in
        let params :=
          if negb (String.eqb (CountriesAllowed options) "")
          then Url.Set_ params "token_countries" (CountriesAllowed options)
          else params in
        let params :=
          if negb (String.eqb (CountriesBlocked options) "")
          then Url.Set_ params "token_countries_blocked" (CountriesBlocked options)
          else params in
        (base +:+ "?" +:+ Url.Encode params, None)
    end.

End SignedMore.

(** ** Requests: upload_video.go, create_video_obj.go and the request maker *)

Module Upload.

(** A byte that may stand in a header name (a token character). *)
Definition validHeaderFieldByte (c : ascii) : bool :=
  Url.is_alnum c || contains_byte c "!#$%&'*+-.^_`|~".

Fixpoint all_bytes (p : ascii -> bool) (s : string) : bool :=
  match s with
  | EmptyString => true
  | String c s' => p c && all_bytes p s'
  end.

Definition to_upper (c : ascii) : ascii :=
  if Url.in_range "a" "z" c then ascii_of_N (N_of_ascii c - 32) else c.
Definition to_lower (c : ascii) : ascii :=
  if Url.in_range "A" "Z" c then ascii_of_N (N_of_ascii c + 32) else c.

(** The first letter and the letters after a dash in upper case, the other
    letters in lower case. *)
Fixpoint canonical_case (upper : bool) (s : string) : string :=
  match s with
  | EmptyString => EmptyString
  | String c s' =>
      let c' := if upper then to_upper c else to_lower c in
      String c' (canonical_case (Ascii.eqb c' "-") s')
  end.

(** [textproto.CanonicalMIMEHeaderKey]: a name that is not made of token
    characters is left as it is. *)
Definition CanonicalMIMEHeaderKey (s : string) : string :=
  if all_bytes validHeaderFieldByte s then canonical_case true s else s.

(** [http.Header.Set] and [http.Header.Get] *)
Definition Header_Set (h : Http.Header) (key value : string) : Http.Header :=
  <[CanonicalMIMEHeaderKey key := [value]]> h.

Definition Header_Get (h : Http.Header) (key : string) : string :=
  match h !! CanonicalMIMEHeaderKey key with
  | Some (x :: _) => x
  | _ => EmptyString
  end.

(** [req.Header.Set(key, value)] *)
Definition set_header (r : Http.Request) (key value : string) : Http.Request :=
  {| Http.Method := Http.Method r;
     Http.ReqURL := Http.ReqURL r;
     Http.ReqHeader := Header_Set (Http.ReqHeader r) key value;
     Http.ReqBody := Http.ReqBody r |}.

(** What [http.NewRequestWithContext] answers for a method, a URL and a body:
    a request and an error, of which one is [nil].  The context only carries
    cancellation and is left out. *)
Definition RequestMaker : Type :=
  string -> string -> string -> option Http.Request * option error.

(** [Client.request] *)
Definition request (newRequest : RequestMaker) (c : Core.Client)
    (method url body contentType : string)
    : Core.outcome (option Http.Request * option error) :=
  match newRequest method url body with
  | (_, Some err) => Core.Return (None, Some (Wrap "failed to create request" err))
  | (None, None) => Core.Panic
  | (Some req, None) =>
      let req := set_header req "AccessKey" (Core.apiKey c) in
      let req := set_header req "User-Agent" (Cfg.UserAgent (Core.config c)) in
      let req :=
        if negb (String.eqb contentType "")
        then set_header req "Content-Type" contentType
        else req in
      Core.Return (Some req, None)
  end.

(** [Client.buildURL], for a path that the caller's format has produced:
    the formats of the package have only [%v] places, filled with strings. *)
Definition buildURL (c : Core.Client) (path : string) : string :=
  Core.baseURL c +:+ path.

(** [UploadVideoOptions] *)
Record UploadVideoOptions : Type := mkUploadOptions {
  jitEnabled : option bool;
  enabledResolution : list string;
  enabledOutputCodecs : list string;
  transcribeEnabled : option bool;
  transcribeLanguage : list string;
  sourceLanguage : string;
  generateTitle : option bool;
  genereateDesc : option bool;
  generateChapter : option bool;
  generateMoments : option bool
}.

(** [UploadVideoOption]: a function that changes the options.  A function
    value of Go may be [nil], which is [None]; the functions that the package
    returns are never [nil]. *)
Definition UploadVideoOption : Type := option (UploadVideoOptions -> UploadVideoOptions).

Definition JITEnabled (v : bool) : UploadVideoOption := Some (fun o =>
  {| jitEnabled := Some v; enabledResolution := enabledResolution o;
     enabledOutputCodecs := enabledOutputCodecs o;
     transcribeEnabled := transcribeEnabled o;
     transcribeLanguage := transcribeLanguage o;
     sourceLanguage := sourceLanguage o; generateTitle := generateTitle o;
     genereateDesc := genereateDesc o; generateChapter := generateChapter o;
     generateMoments := generateMoments o |}).

Definition EnabledResolutions (resolutions : list string) : UploadVideoOption := Some (fun o =>
  {| jitEnabled := jitEnabled o;
     enabledResolution := enabledResolution o ++ resolutions;
     enabledOutputCodecs := enabledOutputCodecs o;
     transcribeEnabled := transcribeEnabled o;
     transcribeLanguage := transcribeLanguage o;
     sourceLanguage := sourceLanguage o; generateTitle := generateTitle o;
     genereateDesc := genereateDesc o; generateChapter := generateChapter o;
     generateMoments := generateMoments o |}).

Definition EnabledOutputCodexs (codexes : list string) : UploadVideoOption := Some (fun o =>
  {| jitEnabled := jitEnabled o; enabledResolution := enabledResolution o;
     enabledOutputCodecs := enabledOutputCodecs o ++ codexes;
     transcribeEnabled := transcribeEnabled o;
     transcribeLanguage := transcribeLanguage o;
     sourceLanguage := sourceLanguage o; generateTitle := generateTitle o;
     genereateDesc := genereateDesc o; generateChapter := generateChapter o;
     generateMoments := generateMoments o |}).

Definition TranscribeEnabled (v : bool) : UploadVideoOption := Some (fun o =>
  {| jitEnabled := jitEnabled o; enabledResolution := enabledResolution o;
     enabledOutputCodecs := enabledOutputCodecs o;
     transcribeEnabled := Some v;
     transcribeLanguage := transcribeLanguage o;
     sourceLanguage := sourceLanguage o; generateTitle := generateTitle o;
     genereateDesc := genereateDesc o; generateChapter := generateChapter o;
     generateMoments := generateMoments o |}).

Definition TranscribeLanguages (languages : list string) : UploadVideoOption := Some (fun o =>
  {| jitEnabled := jitEnabled o; enabledResolution := enabledResolution o;
     enabledOutputCodecs := enabledOutputCodecs o;
     transcribeEnabled := transcribeEnabled o;
     transcribeLanguage := transcribeLanguage o ++ languages;
     sourceLanguage := sourceLanguage o; generateTitle := generateTitle o;
     genereateDesc := genereateDesc o; generateChapter := generateChapter o;
     generateMoments := generateMoments o |}).

Definition SourceLanguage (language : string) : UploadVideoOption := Some (fun o =>
  {| jitEnabled := jitEnabled o; enabledResolution := enabledResolution o;
     enabledOutputCodecs := enabledOutputCodecs o;
     transcribeEnabled := transcribeEnabled o;
     transcribeLanguage := transcribeLanguage o;
     sourceLanguage := language; generateTitle := generateTitle o;
     genereateDesc := genereateDesc o; generateChapter := generateChapter o;
     generateMoments := generateMoments o |}).

Definition GenerateTitle (v : bool) : UploadVideoOption := Some (fun o =>
  {| jitEnabled := jitEnabled o; enabledResolution := enabledResolution o;
     enabledOutputCodecs := enabledOutputCodecs o;
     transcribeEnabled := transcribeEnabled o;
     transcribeLanguage := transcribeLanguage o;
     sourceLanguage := sourceLanguage o; generateTitle := Some v;
     genereateDesc := genereateDesc o; generateChapter := generateChapter o;
     generateMoments := generateMoments o |}).

Definition GenerateDescription (v : bool) : UploadVideoOption := Some (fun o =>
  {| jitEnabled := jitEnabled o; enabledResolution := enabledResolution o;
     enabledOutputCodecs := enabledOutputCodecs o;
     transcribeEnabled := transcribeEnabled o;
     transcribeLanguage := transcribeLanguage o;
     sourceLanguage := sourceLanguage o; generateTitle := generateTitle o;
     genereateDesc := Some v; generateChapter := generateChapter o;
     generateMoments := generateMoments o |}).

Definition GenerateChapters (v : bool) : UploadVideoOption := Some (fun o =>
  {| jitEnabled := jitEnabled o; enabledResolution := enabledResolution o;
     enabledOutputCodecs := enabledOutputCodecs o;
     transcribeEnabled := transcribeEnabled o;
     transcribeLanguage := transcribeLanguage o;
     sourceLanguage := sourceLanguage o; generateTitle := generateTitle o;
     genereateDesc := genereateDesc o; generateChapter := Some v;
     generateMoments := generateMoments o |}).

Definition GenerateMoments (v : bool) : UploadVideoOption := Some (fun o =>
  {| jitEnabled := jitEnabled o; enabledResolution := enabledResolution o;
     enabledOutputCodecs := enabledOutputCodecs o;
     transcribeEnabled := transcribeEnabled o;
     transcribeLanguage := transcribeLanguage o;
     sourceLanguage := sourceLanguage o; generateTitle := generateTitle o;
     genereateDesc := genereateDesc o; generateChapter := generateChapter o;
     generateMoments := Some v |}).

(** [FromVideoOption]: the options are replaced as a whole. *)
Definition FromVideoOption (v : UploadVideoOptions) : UploadVideoOption :=
  Some (fun _ => v).

(** [for _, opt := range opts { opt(options) }]: the options are called one
    after the other on the same value; the call of a [nil] option panics. *)
Fixpoint run_options {A : Type} (opts : list (option (A -> A))) (options : A)
    : Core.outcome A :=
  match opts with
  | [] => Core.Return options
  | None :: _ => Core.Panic
  | Some opt :: rest => run_options rest (opt options)
  end.

(** [options := &UploadVideoOptions{}], followed by the loop. *)
Definition no_options : UploadVideoOptions :=
  {| jitEnabled := None; enabledResolution := []; enabledOutputCodecs := [];
     transcribeEnabled := None; transcribeLanguage := []; sourceLanguage := "";
     generateTitle := None; genereateDesc := None; generateChapter := None;
     generateMoments := None |}.

Definition apply_upload_options (opts : list UploadVideoOption)
    : Core.outcome UploadVideoOptions :=
  run_options opts no_options.

(** [Client.UploadVideo]; [videoFile] is what the reader holds. *)
Definition UploadVideo (newRequest : RequestMaker) (c : Core.Client)
    (videoId videoFile : string) (opts : list UploadVideoOption)
    : Core.outcome (option Resp.Response * option error) :=
  if String.eqb (TrimSpace videoId) ""
  then Core.Return (None, Some ErrVideoIDRequired)
  else
    let uri := buildURL c ("/library/" +:+ Core.libraryID c +:+ "/videos/" +:+ videoId) in
    match apply_upload_options opts with
    | Core.Panic => Core.Panic
    | Core.Return options =>
        match request newRequest c "PUT" uri videoFile "application/octet-stream" with
        | Core.Panic => Core.Panic
        | Core.Return (_, Some err) => Core.Return (None, Some err)
        | Core.Return (None, None) => Core.Panic
        | Core.Return (Some req, None) =>
            let q := QB.buildQuery req in
            let q := QB.setBool "jitEnabled" (jitEnabled options) q in
            let q := QB.setStrings "enabledResolutions" (enabledResolution options) q in
            let q := QB.setStrings "enabledOutputCodecs" (enabledOutputCodecs options) q in
            let q := QB.setBool "transcribeEnabled" (transcribeEnabled options) q in
            let q := QB.setStrings "transcribeLanguages" (transcribeLanguage options) q in
            let q := QB.setString "sourceLanguage" (sourceLanguage options) q in
            let q := QB.setBool "generateTitle" (generateTitle options) q in
            let q := QB.setBool "generateDescription" (genereateDesc options) q in
            let q := QB.setBool "generateChapters" (generateChapter options) q in
            let q := QB.setBool "generateMoments" (generateMoments options) q in
            let q := QB.apply q in
            match Core.doRequest c (QB.req q) with
            | Core.Panic => Core.Panic
            | Core.Return (_, Some err) => Core.Return (None, Some err)
            | Core.Return (resp, None) => Core.Return (resp, None)
            end
        end
    end.

(** [videoOptions] and its two options *)
Record videoOptions : Type := mkVideoOptions {
  CollectionID : string;
  ThumbnailTime : string
}.

(** [VideoOption]: a function that changes the options, or [nil]. *)
Definition VideoOption : Type := option (videoOptions -> videoOptions).

Definition WithCollectionID (id : string) : VideoOption :=
  Some (fun o => {| CollectionID := id; ThumbnailTime := ThumbnailTime o |}).

Definition WithThumbnailTime (time : string) : VideoOption :=
  Some (fun o => {| CollectionID := CollectionID o; ThumbnailTime := time |}).

(** [options := &videoOptions{}] *)
Definition no_video_options : videoOptions :=
  {| CollectionID := ""; ThumbnailTime := "" |}.

(** Modelled from the spec: the declaration of [ErrTitileRequired], which
    [CreateVideoObject] returns for a blank title, is in none of the files at
    hand (errors.go declares [ErrTitleRequired]); it is the "empty title"
    precondition failure of the specification. *)
Definition ErrTitileRequired : error := Declared "ErrTitileRequired".

(** What [json.NewEncoder(&buf).Encode(v)] writes for a map of strings, and
    its error. *)
Definition JsonEncoder : Type := gmap string string -> string * option error.

(** [Client.encodeJSON] *)
Definition encodeJSON (encode : JsonEncoder) (v : gmap string string)
    : option string * option error :=
  match encode v with
  | (_, Some err) => (None, Some (Wrap "failed to encode JSON" err))
  | (buf, None) => (Some buf, None)
  end.

(** [Client.CreateVideoObject] *)
Definition CreateVideoObject (encode : JsonEncoder) (newRequest : RequestMaker)
    (c : Core.Client) (title : string) (opts : list VideoOption)
    : Core.outcome (option Resp.Response * option error) :=
  let url := buildURL c ("/library/" +:+ Core.libraryID c +:+ "/videos") in
  let body : gmap string string := ∅ in
  if String.eqb (TrimSpace title) ""
  then Core.Return (None, Some ErrTitileRequired)
  else
    let body := <["title" := title]> body in
    match run_options opts no_video_options with
    | Core.Panic => Core.Panic
    | Core.Return options =>
        let body :=
          if negb (String.eqb (CollectionID options) "")
          then <["collectionId" := CollectionID options]> body else body in
        let body :=
          if negb (String.eqb (ThumbnailTime options) "")
          then <["thumbnailTime" := ThumbnailTime options]> body else body in
        match encodeJSON encode body with
        | (_, Some err) => Core.Return (None, Some err)
        | (None, None) => Core.Panic
        | (Some bodyBuf, None) =>
            match request newRequest c "POST" url bodyBuf "application/json" with
            | Core.Panic => Core.Panic
            | Core.Return (_, Some err) => Core.Return (None, Some err)
            | Core.Return (None, None) => Core.Panic
            | Core.Return (Some req, None) =>
                match Core.doRequest c req with
                | Core.Panic => Core.Panic
                | Core.Return (_, Some err) => Core.Return (None, Some err)
                | Core.Return (resp, None) => Core.Return (resp, None)
                end
            end
        end
    end.

End Upload.

(** ** Vocabulary of the properties

    The definitions below are not part of the package: they name what the
    properties speak about, and the sample values on which they are
    evaluated. *)

(** The status codes that [checkResponseError] names. *)
Definition success_codes : list Z := [200; 201; 202; 204].
Definition sentinel_codes : list Z := [401; 403; 404; 429; 500; 503].

(** Every byte of the string is a slash. *)
Fixpoint all_slashes (s : string) : bool :=
  match s with
  | EmptyString => true
  | String c s' => Ascii.eqb c "/" && all_slashes s'
  end.

(** The token as the specification words it. *)
Module TokenSpec.

(** The URL-safe form of one character of a base64 text: ['+'] becomes
    ['-'], ['/'] becomes ['_'], ['='] and the newline are deleted. *)
Definition url_safe_char (c : ascii) : string :=
  if Ascii.eqb c "+" then "-"
  else if Ascii.eqb c "/" then "_"
  else if Ascii.eqb c "=" then ""
  else if Ascii.eqb c "010" then ""
  else String c "".

Fixpoint url_safe (s : string) : string :=
  match s with
  | EmptyString => EmptyString
  | String c s' => url_safe_char c +:+ url_safe s'
  end.

(** A segment that is appended only when it is not empty. *)
Definition optional (s : string) : string :=
  if String.eqb s "" then "" else s.

(** The extra parameters in ascending order of their keys, each one only
    when its value is not empty; the values are not URL-encoded. *)
Definition extra_pairs (opts : Signed.SignedURLOptions) : list string :=
  (if String.eqb (Signed.CountriesAllowed opts) "" then []
   else ["token_countries=" +:+ Signed.CountriesAllowed opts])
  ++ (if String.eqb (Signed.CountriesBlocked opts) "" then []
      else ["token_countries_blocked=" +:+ Signed.CountriesBlocked opts]).

Definition extra_params (opts : Signed.SignedURLOptions) : string :=
  Join (extra_pairs opts) "&".

(** Key, path, decimal expiry, then the user IP and the extra parameters
    when they are there; nothing in between. *)
Definition hashable (key path : string) (expiry : Z)
    (opts : Signed.SignedURLOptions) : string :=
  key +:+ path +:+ FormatInt expiry
    +:+ optional (Signed.UserIP opts) +:+ optional (extra_params opts).

Definition token (key path : string) (expiry : Z)
    (opts : Signed.SignedURLOptions) : string :=
  url_safe (Base64.EncodeToString
              (Sha256.Sum256 (Sha256.bytes_of_string (hashable key path expiry opts)))).

End TokenSpec.

(** Every occurrence of the byte [c] is replaced by [new]. *)
Fixpoint subst_char (c : ascii) (new : string) (s : string) : string :=
  match s with
  | EmptyString => EmptyString
  | String d s' => (if Ascii.eqb d c then new else String d "") +:+ subst_char c new s'
  end.

(** The query strings. *)
Module QuerySpec.

Import Url QB.

(** The pieces of a query string between its ['&'] separators. *)
Fixpoint pieces (s : string) : list string :=
  match s with
  | EmptyString => [EmptyString]
  | String c s' =>
      if Ascii.eqb c "&" then EmptyString :: pieces s'
      else match pieces s' with
           | p :: ps => String c p :: ps
           | [] => [String c EmptyString]
           end
  end.

(** One value more for a key: what [parseQuery] does with a pair. *)
Definition add_value (m : Values) (k x : string) : Values :=
  <[k := default [] (m !! k) ++ [x]]> m.

Definition add_values (m : Values) (k : string) (l : list string) : Values :=
  fold_left (fun m x => add_value m k x) l m.

(** The values of a key, when there is at least one. *)
Definition nonempty (o : option (list string)) : option (list string) :=
  match o with
  | Some (x :: l) => Some (x :: l)
  | _ => None
  end.

(** No key of the map has an empty list of values. *)
Definition no_empty (v : Values) : Prop := forall k, v !! k <> Some [].

(** How many times a key occurs in a query string, as [URL.Query] reads
    it. *)
Definition key_count (query k : string) : nat :=
  length (default [] (ParseQuery query !! k)).

(** The parameter that a call writes, if it writes one. *)
Definition sets (s : setter) : option (string * string) :=
  match s with
  | SetBool key (Some b) => Some (key, FormatBool b)
  | SetBool key None => None
  | SetString key v =>
      if String.eqb (TrimSpace v) "" then None else Some (key, v)
  | SetStrings key [] => None
  | SetStrings key v => Some (key, Join v ",")
  end.

(** The value that a chain of calls writes for a key last, if any. *)
Fixpoint written (calls : list setter) (k : string) : option string :=
  match calls with
  | [] => None
  | s :: rest =>
      match written rest k with
      | Some x => Some x
      | None =>
          match sets s with
          | Some (k', x) => if String.eqb k' k then Some x else None
          | None => None
          end
      end
  end.

(** The calls that the setters pass over for the key [key]: a [nil]
    pointer, an empty or blank string, a [nil] or empty list. *)
Inductive skipped (key : string) : setter -> Prop :=
  | skipped_nil_bool : skipped key (SetBool key None)
  | skipped_blank_string v : TrimSpace v = "" -> skipped key (SetString key v)
  | skipped_no_strings : skipped key (SetStrings key []).

End QuerySpec.

(** ** Sample values *)

(** A body of 201 bytes. *)
Definition long_body : string :=
  string_of_list_ascii (repeat "x"%char 201).

(** A request. *)
Definition sample_request : Http.Request :=
  Http.mkRequest "GET"
    (Http.mkURL "https" "video.bunnycdn.com" "/library/1/videos/v" "") ∅ "".

Definition sample_header : Http.Header :=
  {[ "Content-Type" := ["application/json"] ]}.

(** The transports: one answers 404 with a body, one fails, and the body of
    the third breaks while it is read. *)
Definition answers_404 : Http.Request -> Http.DoResult :=
  fun _ => Http.DoOk (Http.mkResponse 404 sample_header (Http.mkReader "gone" None)).
Definition fails : Http.Request -> Http.DoResult :=
  fun _ => Http.DoErr None (External "dial tcp").
Definition body_breaks : Http.Request -> Http.DoResult :=
  fun _ => Http.DoOk (Http.mkResponse 200 sample_header
                        (Http.mkReader "par" (Some (External "reset")))).

(** A configuration with the two required fields and nothing else. *)
Definition minimal_config : Cfg.Config :=
  {| Cfg.Logger := None; Cfg.APIKey := "test-key"; Cfg.LibraryID := "123";
     Cfg.CDNHostname := ""; Cfg.EmbedTokenKey := ""; Cfg.CDNTokenKey := "";
     Cfg.UserAgent := ""; Cfg.BaseURL := ""; Cfg.HTTPClient := None;
     Cfg.MaxRetries := 0; Cfg.Timeout := 0 |}.

(** The minimal configuration with an HTTP client over a given transport, and
    with a CDN hostname and a CDN token key. *)
Definition config_over (t : Http.Request -> Http.DoResult) : Cfg.Config :=
  {| Cfg.Logger := None; Cfg.APIKey := "test-key"; Cfg.LibraryID := "123";
     Cfg.CDNHostname := ""; Cfg.EmbedTokenKey := ""; Cfg.CDNTokenKey := "";
     Cfg.UserAgent := ""; Cfg.BaseURL := "";
     Cfg.HTTPClient := Some (Http.mkClient 1 t);
     Cfg.MaxRetries := 0; Cfg.Timeout := 0 |}.

Definition cdn_config (host : string) : Cfg.Config :=
  {| Cfg.Logger := None; Cfg.APIKey := "test-key"; Cfg.LibraryID := "123";
     Cfg.CDNHostname := host; Cfg.EmbedTokenKey := "embed-secret";
     Cfg.CDNTokenKey := "cdn-secret";
     Cfg.UserAgent := ""; Cfg.BaseURL := ""; Cfg.HTTPClient := None;
     Cfg.MaxRetries := 0; Cfg.Timeout := 0 |}.

(** The client that [NewClient] makes of a valid configuration (the default
    transport of the samples is the one that fails). *)
Definition new_client (cfg : Cfg.Config) : Core.Client :=
  let cfg1 := Cfg.init fails cfg in
  {| Core.config := cfg1;
     Core.httpClient := Cfg.HTTPClient cfg1;
     Core.baseURL := Cfg.BaseURL cfg1;
     Core.libraryID := Cfg.LibraryID cfg1;
     Core.apiKey := Cfg.APIKey cfg1 |}.

Definition client_over (t : Http.Request -> Http.DoResult) : Core.Client :=
  new_client (config_over t).

(** A client whose CDN hostname is a single slash. *)
Definition slash_host_client : Core.Client := new_client (cdn_config "/").

(** A client whose CDN hostname ends in two slashes. *)
Definition sample_client : Core.Client :=
  new_client (cdn_config "vz-abc123.b-cdn.net//").

(** A request whose query string has the key [a] twice, and one whose query
    string has the key [lang]. *)
Definition twice_a_request : Http.Request :=
  Http.mkRequest "PUT"
    (Http.mkURL "https" "video.bunnycdn.com" "/library/123/videos/abc" "a=1&a=2") ∅ "".

Definition lang_request : Http.Request :=
  Http.mkRequest "PUT"
    (Http.mkURL "https" "video.bunnycdn.com" "/library/123/videos/abc" "lang=fr") ∅ "".

(** ** More vocabulary *)

(** A byte. *)
Definition is_byte (b : Z) : Prop := 0 <= b < 256.

(** The characters of a URL-safe token: letters, digits, ['-'] and ['_']. *)
Definition token_char (c : ascii) : bool :=
  Url.is_alnum c || Ascii.eqb c "-" || Ascii.eqb c "_".

(** The characters of a lower-case hexadecimal text. *)
Definition hex_char (c : ascii) : bool :=
  Url.in_range "0" "9" c || Url.in_range "a" "f" c.

(** The characters that [QueryEscape] writes: the unreserved ones, ['%'] and
    ['+']. *)
Definition escaped_char (c : ascii) : bool :=
  negb (Url.shouldEscape c) || Ascii.eqb c "%" || Ascii.eqb c "+".

(** The characters of an encoded query string: those of [QueryEscape], ['=']
    and ['&']. *)
Definition query_char (c : ascii) : bool :=
  escaped_char c || Ascii.eqb c "=" || Ascii.eqb c "&".

(** The characters that [QueryEscape] leaves as they are. *)
Definition plain_char (c : ascii) : bool := negb (Url.shouldEscape c).

(** The client with another CDN hostname. *)
Definition with_host (c : Core.Client) (host : string) : Core.Client :=
  {| Core.config :=
       {| Cfg.Logger := Cfg.Logger (Core.config c);
          Cfg.APIKey := Cfg.APIKey (Core.config c);
          Cfg.LibraryID := Cfg.LibraryID (Core.config c);
          Cfg.CDNHostname := host;
          Cfg.EmbedTokenKey := Cfg.EmbedTokenKey (Core.config c);
          Cfg.CDNTokenKey := Cfg.CDNTokenKey (Core.config c);
          Cfg.UserAgent := Cfg.UserAgent (Core.config c);
          Cfg.BaseURL := Cfg.BaseURL (Core.config c);
          Cfg.HTTPClient := Cfg.HTTPClient (Core.config c);
          Cfg.MaxRetries := Cfg.MaxRetries (Core.config c);
          Cfg.Timeout := Cfg.Timeout (Core.config c) |};
     Core.httpClient := Core.httpClient c;
     Core.baseURL := Core.baseURL c;
     Core.libraryID := Core.libraryID c;
     Core.apiKey := Core.apiKey c |}.

(** The key that a call of a setter names. *)
Definition key_of (s : QB.setter) : string :=
  match s with
  | QB.SetBool key _ => key
  | QB.SetString key _ => key
  | QB.SetStrings key _ => key
  end.

(** The value of a query parameter of the upload: of a flag that may be
    missing, of a list and of a text. *)
Definition bool_param (v : option bool) : option string :=
  match v with
  | Some b => Some (FormatBool b)
  | None => None
  end.

Definition list_param (v : list string) : option string :=
  match v with
  | [] => None
  | _ => Some (Join v ",")
  end.

Definition text_param (v : string) : option string :=
  if String.eqb (TrimSpace v) "" then None else Some v.

(** The query parameters of an upload with given options. *)
Definition upload_param (o : Upload.UploadVideoOptions) (k : string) : option string :=
  if String.eqb k "jitEnabled" then bool_param (Upload.jitEnabled o)
  else if String.eqb k "enabledResolutions" then list_param (Upload.enabledResolution o)
  else if String.eqb k "enabledOutputCodecs" then list_param (Upload.enabledOutputCodecs o)
  else if String.eqb k "transcribeEnabled" then bool_param (Upload.transcribeEnabled o)
  else if String.eqb k "transcribeLanguages" then list_param (Upload.transcribeLanguage o)
  else if String.eqb k "sourceLanguage" then text_param (Upload.sourceLanguage o)
  else if String.eqb k "generateTitle" then bool_param (Upload.generateTitle o)
  else if String.eqb k "generateDescription" then bool_param (Upload.genereateDesc o)
  else if String.eqb k "generateChapters" then bool_param (Upload.generateChapter o)
  else if String.eqb k "generateMoments" then bool_param (Upload.generateMoments o)
  else None.

(** What the two calls of the API do with the answer of [doRequest]: the
    response is dropped when there is an error. *)
Definition response_or_error (r : Core.outcome (option Resp.Response * option error))
    : Core.outcome (option Resp.Response * option error) :=
  match r with
  | Core.Panic => Core.Panic
  | Core.Return (_, Some err) => Core.Return (None, Some err)
  | Core.Return (resp, None) => Core.Return (resp, None)
  end.

(** A request maker that never fails: the URL text is kept whole as the path
    of the request, unparsed. *)
Definition plain_maker : Upload.RequestMaker :=
  fun method url body =>
    (Some (Http.mkRequest method (Http.mkURL "" "" url "") ∅ body), None).

(** An encoder that writes the title only. *)
Definition title_encoder : Upload.JsonEncoder :=
  fun m => (default "" (m !! "title"), None).

(** The options of an upload after [JITEnabled(true)] and
    [EnabledResolutions("720p", "1080p")]. *)
Definition two_options : Upload.UploadVideoOptions :=
  {| Upload.jitEnabled := Some true;
     Upload.enabledResolution := ["720p"; "1080p"];
     Upload.enabledOutputCodecs := [];
     Upload.transcribeEnabled := None;
     Upload.transcribeLanguage := [];
     Upload.sourceLanguage := "";
     Upload.generateTitle := None;
     Upload.genereateDesc := None;
     Upload.generateChapter := None;
     Upload.generateMoments := None |}.

(** * Properties *)

(** ** Strings *)

Section StringFacts.

Implicit Types s t u : string.

Lemma app_cons_s c s t : String c s +:+ t = String c (s +:+ t).
Proof. reflexivity. Qed.

Lemma app_nil_l_s s : "" +:+ s = s.
Proof. reflexivity. Qed.

Lemma app_nil_r_s s : s +:+ "" = s.
Proof.
  induction s as [|c s IH]; [reflexivity|]. now rewrite app_cons_s, IH.
Qed.

Lemma app_assoc_s s t u : (s +:+ t) +:+ u = s +:+ t +:+ u.
Proof.
  induction s as [|c s IH]; [reflexivity|]. now rewrite !app_cons_s, IH.
Qed.

Lemma length_app_s s t :
  String.length (s +:+ t) = (String.length s + String.length t)%nat.
Proof.
  induction s as [|c s IH]; [reflexivity|].
  rewrite app_cons_s. cbn [String.length]. now rewrite IH.
Qed.

Lemma prefix_refl_app s t : String.prefix s (s +:+ t) = true.
Proof.
  induction s as [|c s IH].
  - now destruct t.
  - rewrite app_cons_s. cbn [String.prefix].
    destruct (ascii_dec c c) as [_|Hne]; [exact IH | now destruct Hne].
Qed.

Lemma drop_bytes_app s t : drop_bytes (String.length s) (s +:+ t) = t.
Proof. induction s as [|c s IH]; [reflexivity | exact IH]. Qed.

Lemma length_take_bytes n s :
  (n <= String.length s)%nat -> String.length (take_bytes n s) = n.
Proof.
  revert s; induction n as [|n IH]; intros [|c s] Hn; cbn in *;
    try reflexivity; try lia.
  rewrite IH; [reflexivity | lia].
Qed.

(** A string ends with what is appended to it. *)
Lemma HasSuffix_app s t : HasSuffix (s +:+ t) t = true.
Proof.
  unfold HasSuffix. rewrite length_app_s.
  replace (String.length s + String.length t - String.length t)%nat
    with (String.length s) by lia.
  rewrite drop_bytes_app, String.eqb_refl, andb_true_r.
  apply Nat.leb_le; lia.
Qed.

(** A string contains what lies between a head and a tail. *)
Lemma Contains_app s t u : Contains (s +:+ t +:+ u) t = true.
Proof.
  induction s as [|c s IH].
  - rewrite app_nil_l_s.
    assert (H : String.prefix t (t +:+ u) = true) by apply prefix_refl_app.
    destruct (t +:+ u); cbn [Contains]; now rewrite H.
  - rewrite app_cons_s. cbn [Contains]. rewrite IH. apply orb_true_r.
Qed.

(** The last byte of a string of two bytes or more is the last byte of its
    tail. *)
Lemma HasSuffix_cons d e t c :
  HasSuffix (String d (String e t)) (String c "") = HasSuffix (String e t) (String c "").
Proof.
  unfold HasSuffix. cbn [String.length].
  replace (S (S (String.length t)) - 1)%nat with (S (String.length t - 0)) by lia.
  replace (S (String.length t) - 1)%nat with (String.length t - 0)%nat by lia.
  reflexivity.
Qed.

(** What [TrimRight] leaves does not end with a byte of the cut set. *)
Lemma TrimRight_no_trailing s cutset c :
  contains_byte c cutset = true ->
  HasSuffix (TrimRight s cutset) (String c "") = false.
Proof.
  intros Hc. induction s as [|d s IH]; [reflexivity|].
  cbn [TrimRight]. destruct (TrimRight s cutset) as [|e t] eqn:E.
  - destruct (contains_byte d cutset) eqn:Hd; [reflexivity|].
    unfold HasSuffix; cbn.
    destruct (Ascii.eqb_spec d c) as [->|Hne]; [congruence|reflexivity].
  - now rewrite HasSuffix_cons.
Qed.

(** [TrimRight] leaves a string that does not end with a byte of the cut
    set as it is. *)
Lemma TrimRight_id s cutset :
  (forall c, contains_byte c cutset = true -> HasSuffix s (String c "") = false) ->
  TrimRight s cutset = s.
Proof.
  induction s as [|d s IH]; intros H; [reflexivity|].
  cbn [TrimRight]. destruct s as [|e t].
  - cbn. destruct (contains_byte d cutset) eqn:Hd; [|reflexivity].
    specialize (H d Hd). unfold HasSuffix in H; cbn in H.
    now rewrite Ascii.eqb_refl in H.
  - rewrite IH; [reflexivity|].
    intros c Hc. specialize (H c Hc). now rewrite HasSuffix_cons in H.
Qed.

Lemma length_drop_bytes n s :
  String.length (drop_bytes n s) = (String.length s - n)%nat.
Proof.
  revert s; induction n as [|n IH]; intros [|c s]; cbn; try reflexivity.
  apply IH.
Qed.

Lemma length_rev_app s t :
  String.length (String.rev_app s t) = (String.length s + String.length t)%nat.
Proof.
  revert t; induction s as [|c s IH]; intros t; [reflexivity|].
  cbn [String.rev_app String.length]. rewrite IH. cbn [String.length]. lia.
Qed.

(** A round of [trim_left] that removes a rune makes the string shorter. *)
Lemma strip_rune_shorter (runes : list string) s s' :
  Forall (fun r => r <> "") runes ->
  strip_rune runes s = Some s' ->
  (String.length s' < String.length s)%nat.
Proof.
  induction 1 as [|r runes Hr _ IH]; [discriminate|].
  cbn [strip_rune]. destruct (String.prefix r s) eqn:Hp; [|exact IH].
  intros [= <-]. rewrite length_drop_bytes.
  destruct r as [|c r]; [congruence|].
  destruct s as [|d s]; [discriminate|]. cbn [String.length]. lia.
Qed.

(** The rounds of [trim_left] are enough: no rune of the set is left at the
    head of the result. *)
Lemma trim_left_done (runes : list string) :
  Forall (fun r => r <> "") runes ->
  forall fuel s, (String.length s <= fuel)%nat ->
  strip_rune runes (trim_left fuel runes s) = None.
Proof.
  intros Hr. induction fuel as [|fuel IH]; intros s Hs.
  - destruct s; [|cbn in Hs; lia]. cbn [trim_left].
    destruct (strip_rune runes "") as [s'|] eqn:E; [|reflexivity].
    apply strip_rune_shorter in E; [cbn in E; lia | assumption].
  - cbn [trim_left]. destruct (strip_rune runes s) as [s'|] eqn:E; [|exact E].
    apply IH. apply strip_rune_shorter in E; [lia | assumption].
Qed.

Lemma space_runes_nonempty : Forall (fun r => r <> "") space_runes.
Proof. unfold space_runes. repeat constructor; discriminate. Qed.

(** [TrimSpace] goes to the end of its work on both sides: what the left
    trimming leaves does not start with white space, and what the right
    trimming leaves does not end with white space. *)
Lemma TrimLeftSpace_done s :
  strip_rune space_runes (TrimLeftSpace s) = None.
Proof. apply trim_left_done; [apply space_runes_nonempty | lia]. Qed.

Lemma TrimRightSpace_done s :
  strip_rune (map String.rev space_runes)
    (trim_left (String.length s) (map String.rev space_runes) (String.rev s))
  = None.
Proof.
  apply trim_left_done.
  - unfold space_runes. repeat constructor; discriminate.
  - unfold String.rev. rewrite length_rev_app. cbn [String.length]. lia.
Qed.

End StringFacts.

(** ** Status classification and API errors *)

Section Classification.

Variables (statusCode : Z) (body : string).

Lemma checkResponseError_success :
  statusCode ∈ success_codes -> Core.checkResponseError statusCode body = None.
Proof.
  unfold success_codes. rewrite !elem_of_cons, elem_of_nil.
  intros [-> | [-> | [-> | [-> | []]]]]; reflexivity.
Qed.

Lemma checkResponseError_fallback :
  statusCode ∉ success_codes -> statusCode ∉ sentinel_codes ->
  Core.checkResponseError statusCode body
  = Some (ErrAPI (newAPIError statusCode body)).
Proof.
  unfold success_codes, sentinel_codes.
  rewrite !not_elem_of_cons. intros (?&?&?&?&_) (?&?&?&?&?&?&_).
  unfold Core.checkResponseError, Http.StatusOK, Http.StatusCreated,
    Http.StatusAccepted, Http.StatusNoContent, Http.StatusBadRequest,
    Http.StatusUnauthorized, Http.StatusNotFound, Http.StatusTooManyRequests,
    Http.StatusInternalServerError, Http.StatusServiceUnavailable,
    Http.StatusForbidden.
  repeat match goal with
         | |- context [?x =? ?y] => destruct (Z.eqb_spec x y); try lia
         end; reflexivity.
Qed.

End Classification.

(** C2.  The status classification of the client: 200, 201, 202 and 204 give
    no error; 401, 403, 404, 429, 500 and 503 give the unauthorized,
    forbidden, not-found, rate-limited, internal-server and
    service-unavailable errors; 400 and every other code give an [APIError]
    with that status code and the raw body.  So the classification answers
    for every code, and says "no error" for the four success codes only. *)
Theorem checkResponseError_classification (statusCode : Z) (body : string) :
  (statusCode ∈ success_codes -> Core.checkResponseError statusCode body = None)
  /\ (statusCode = 401 -> Core.checkResponseError statusCode body = Some ErrUnauthorized)
  /\ (statusCode = 403 -> Core.checkResponseError statusCode body = Some ErrForbidden)
  /\ (statusCode = 404 -> Core.checkResponseError statusCode body = Some ErrVideoNotFound)
  /\ (statusCode = 429 -> Core.checkResponseError statusCode body = Some ErrRateLimited)
  /\ (statusCode = 500 -> Core.checkResponseError statusCode body = Some ErrInternalServer)
  /\ (statusCode = 503 -> Core.checkResponseError statusCode body = Some ErrServiceUnavailable)
  /\ (statusCode ∉ success_codes -> statusCode ∉ sentinel_codes ->
      exists e, Core.checkResponseError statusCode body = Some (ErrAPI e)
                /\ Errors.StatusCode e = statusCode /\ Errors.Body e = body)
  /\ (Core.checkResponseError statusCode body = None -> statusCode ∈ success_codes).
Proof.
  repeat split; try (intros ->; reflexivity).
  - apply checkResponseError_success.
  - intros Hs Hn. exists (newAPIError statusCode body).
    rewrite checkResponseError_fallback by assumption. now repeat split.
  - intros Hnone. destruct (decide (statusCode ∈ success_codes)) as [|Hs]; [assumption|].
    destruct (decide (statusCode ∈ sentinel_codes)) as [Hin|Hn].
    + revert Hin Hnone. unfold sentinel_codes. rewrite !elem_of_cons, elem_of_nil.
      intros [-> | [-> | [-> | [-> | [-> | [-> | []]]]]]]; discriminate.
    + rewrite checkResponseError_fallback in Hnone by assumption. discriminate.
Qed.

(** The classification at 201, 401, 403, 404, 429, 500, 503, at 400 and at the
    unknown code 418. *)
Lemma checkResponseError_classification_witness :
  Core.checkResponseError 201 "{}" = None
  /\ Core.checkResponseError 401 "no" = Some ErrUnauthorized
  /\ Core.checkResponseError 403 "no" = Some ErrForbidden
  /\ Core.checkResponseError 404 "no" = Some ErrVideoNotFound
  /\ Core.checkResponseError 429 "no" = Some ErrRateLimited
  /\ Core.checkResponseError 500 "no" = Some ErrInternalServer
  /\ Core.checkResponseError 503 "no" = Some ErrServiceUnavailable
  /\ (exists e, Core.checkResponseError 400 "invalid input" = Some (ErrAPI e)
                /\ Errors.StatusCode e = 400 /\ Errors.Body e = "invalid input")
  /\ (exists e, Core.checkResponseError 418 "i'm a teapot" = Some (ErrAPI e)
                /\ Errors.StatusCode e = 418 /\ Errors.Body e = "i'm a teapot").
Proof.
  repeat apply conj.
  - apply (checkResponseError_classification 201 "{}"). unfold success_codes. set_solver.
  - now apply (checkResponseError_classification 401 "no").
  - now apply (checkResponseError_classification 403 "no").
  - now apply (checkResponseError_classification 404 "no").
  - now apply (checkResponseError_classification 429 "no").
  - now apply (checkResponseError_classification 500 "no").
  - now apply (checkResponseError_classification 503 "no").
  - apply (checkResponseError_classification 400 "invalid input");
      unfold success_codes, sentinel_codes; rewrite !not_elem_of_cons;
      repeat split; try lia; apply not_elem_of_nil.
  - apply (checkResponseError_classification 418 "i'm a teapot");
      unfold success_codes, sentinel_codes; rewrite !not_elem_of_cons;
      repeat split; try lia; apply not_elem_of_nil.
Defined.

(** C6, as stated, fails: for a body of 201 bytes the message is not the
    200-byte prefix of the body, and it is longer than 200 bytes. *)
Lemma newAPIError_message_exceeds_200 :
  Errors.Message (newAPIError 500 long_body) <> take_bytes 200 long_body
  /\ ~ (String.length (Errors.Message (newAPIError 500 long_body)) <= 200)%nat.
Proof.
  split.
  - intros H. apply (f_equal String.length) in H. vm_compute in H. discriminate.
  - vm_compute. lia.
Qed.

(** C6, amended.  The [APIError] made from a status code and a body carries
    that status code and the raw body; its message is the body when the body
    has at most 200 bytes; for a longer body it is the 200-byte prefix of the
    body followed by three dots, 203 bytes in all.  The message never has
    more than 203 bytes. *)
Theorem newAPIError_message (statusCode : Z) (body : string) :
  Errors.StatusCode (newAPIError statusCode body) = statusCode
  /\ Errors.Body (newAPIError statusCode body) = body
  /\ ((String.length body <= 200)%nat ->
      Errors.Message (newAPIError statusCode body) = body)
  /\ ((200 < String.length body)%nat ->
      Errors.Message (newAPIError statusCode body) = take_bytes 200 body +:+ "..."
      /\ String.length (Errors.Message (newAPIError statusCode body)) = 203%nat)
  /\ (String.length (Errors.Message (newAPIError statusCode body)) <= 203)%nat.
Proof.
  unfold newAPIError, parseErrorMessage; cbn [Errors.StatusCode Errors.Body Errors.Message].
  split; [reflexivity|]. split; [reflexivity|].
  destruct (Z.ltb_spec 200 (Z.of_nat (String.length body))) as [Hlt|Hle].
  - assert (Hlen : String.length (take_bytes 200 body +:+ "...") = 203%nat).
    { rewrite length_app_s, length_take_bytes by lia. reflexivity. }
    repeat split; try lia; auto.
  - repeat split; try lia; auto.
Qed.

(** The message for a body of 13 bytes and for one of 201 bytes. *)
Lemma newAPIError_message_witness :
  Errors.Message (newAPIError 400 "invalid input") = "invalid input"
  /\ Errors.Message (newAPIError 500 long_body) = take_bytes 200 long_body +:+ "..."
  /\ String.length (Errors.Message (newAPIError 500 long_body)) = 203%nat.
Proof.
  split.
  - apply (newAPIError_message 400 "invalid input"). vm_compute. lia.
  - apply (newAPIError_message 500 long_body). vm_compute. lia.
Defined.

(** ** doRequest *)

(** C10.  When the round trip succeeds and the body is read to its end, but
    the status code is classified as an error, [doRequest] returns the
    response it has built (status code, headers, whole body) together with
    that error.  When the transport fails, or the body cannot be read, it
    returns no response and the wrapped error. *)
Theorem doRequest_keeps_response (c : Core.Client) (cl : Http.Client)
    (req : Http.Request) :
  Core.httpClient c = Some cl ->
  (forall resp data err,
      Http.Do cl req = Http.DoOk resp ->
      Http.ReadAll (Http.Body resp) = (data, None) ->
      Core.checkResponseError (Http.StatusCode resp) data = Some err ->
      Core.doRequest c req
      = Core.Return
          (Some {| Resp.StatusCode := Http.StatusCode resp;
                   Resp.Headers := Http.Header_ resp;
                   Resp.Body := data |}, Some err))
  /\ (forall r err,
      Http.Do cl req = Http.DoErr r err ->
      Core.doRequest c req
      = Core.Return (None, Some (Wrap "failed to perform request" err)))
  /\ (forall resp data err,
      Http.Do cl req = Http.DoOk resp ->
      Http.ReadAll (Http.Body resp) = (data, Some err) ->
      Core.doRequest c req
      = Core.Return (None, Some (Wrap "failed to read response body" err))).
Proof.
  intros Hcl. unfold Core.doRequest. rewrite Hcl. repeat split.
  - intros resp data err -> Hread Hcheck.
    unfold Resp.newResponse. rewrite Hread. cbn. now rewrite Hcheck.
  - now intros r err ->.
  - intros resp data err -> Hread.
    unfold Resp.newResponse. now rewrite Hread.
Qed.

(** [doRequest] over the three transports. *)
Lemma doRequest_keeps_response_witness :
  Core.doRequest (client_over answers_404) sample_request
  = Core.Return (Some (Resp.mkResponse 404 sample_header "gone"), Some ErrVideoNotFound)
  /\ Core.doRequest (client_over fails) sample_request
     = Core.Return (None, Some (Wrap "failed to perform request" (External "dial tcp")))
  /\ Core.doRequest (client_over body_breaks) sample_request
     = Core.Return (None, Some (Wrap "failed to read response body" (External "reset"))).
Proof.
  repeat apply conj.
  - apply (proj1 (doRequest_keeps_response (client_over answers_404)
                    (Http.mkClient 1 answers_404) sample_request eq_refl)
             (Http.mkResponse 404 sample_header (Http.mkReader "gone" None)) "gone");
      reflexivity.
  - apply (proj1 (proj2 (doRequest_keeps_response (client_over fails)
                    (Http.mkClient 1 fails) sample_request eq_refl)) None).
    reflexivity.
  - apply (proj2 (proj2 (doRequest_keeps_response (client_over body_breaks)
                    (Http.mkClient 1 body_breaks) sample_request eq_refl))
             (Http.mkResponse 200 sample_header
                (Http.mkReader "par" (Some (External "reset")))) "par");
      reflexivity.
Defined.

(** ** Configuration *)

(** C5, as stated, fails: the minimal configuration is valid, and after the
    defaults its CDN hostname and its two token keys are still empty. *)
Lemma init_leaves_cdn_fields_empty :
  Cfg.validate minimal_config = None
  /\ Cfg.CDNHostname (Cfg.init fails minimal_config) = ""
  /\ Cfg.EmbedTokenKey (Cfg.init fails minimal_config) = ""
  /\ Cfg.CDNTokenKey (Cfg.init fails minimal_config) = "".
Proof. now repeat split. Qed.

(** C5, amended.  A configuration that passes validation and has had the
    defaults applied has a non-empty API key, library id, user agent and base
    URL, at least one retry, a time limit of at least one nanosecond and an
    HTTP client; the CDN hostname, the two token keys and the logger are
    what the caller supplied, empty or not. *)
Theorem init_defaults (transport : Http.Request -> Http.DoResult) (c : Cfg.Config) :
  Cfg.validate c = None ->
  let c' := Cfg.init transport c in
  Cfg.APIKey c' <> "" /\ Cfg.LibraryID c' <> ""
  /\ Cfg.UserAgent c' <> "" /\ Cfg.BaseURL c' <> ""
  /\ 1 <= Cfg.MaxRetries c' /\ 1 <= Cfg.Timeout c'
  /\ Cfg.HTTPClient c' <> None
  /\ Cfg.CDNHostname c' = Cfg.CDNHostname c
  /\ Cfg.EmbedTokenKey c' = Cfg.EmbedTokenKey c
  /\ Cfg.CDNTokenKey c' = Cfg.CDNTokenKey c
  /\ Cfg.Logger c' = Cfg.Logger c.
Proof.
  unfold Cfg.validate. intros Hv. cbn.
  destruct (String.eqb_spec (Cfg.APIKey c) "") as [|Hk]; [discriminate|].
  destruct (String.eqb_spec (Cfg.LibraryID c) "") as [|Hl]; [discriminate|].
  repeat split; try assumption.
  - destruct (String.eqb_spec (Cfg.UserAgent c) ""); [discriminate | assumption].
  - destruct (String.eqb_spec (Cfg.BaseURL c) ""); [discriminate | assumption].
  - destruct (Z.ltb_spec (Cfg.MaxRetries c) 1); [unfold Cfg.DefaultMaxRetries|]; lia.
  - destruct (Z.ltb_spec (Cfg.Timeout c) 1); [unfold Cfg.DefaultTimeout|]; lia.
  - destruct (Cfg.HTTPClient c); discriminate.
Qed.

(** The defaults of the minimal configuration. *)
Lemma init_defaults_witness :
  let c' := Cfg.init fails minimal_config in
  Cfg.APIKey c' <> "" /\ Cfg.LibraryID c' <> ""
  /\ Cfg.UserAgent c' <> "" /\ Cfg.BaseURL c' <> ""
  /\ 1 <= Cfg.MaxRetries c' /\ 1 <= Cfg.Timeout c'
  /\ Cfg.HTTPClient c' <> None
  /\ Cfg.CDNHostname c' = ""
  /\ Cfg.EmbedTokenKey c' = ""
  /\ Cfg.CDNTokenKey c' = ""
  /\ Cfg.Logger c' = None.
Proof.
  apply (init_defaults fails minimal_config).
  reflexivity.
Defined.

(** What [NewClient] accepts is valid, and the client keeps the configuration
    with its defaults. *)
Lemma NewClient_config transport (cfg : Cfg.Config) (c : Core.Client) :
  Core.NewClient transport (Some cfg) = (Some c, None) ->
  Cfg.validate cfg = None /\ Core.config c = Cfg.init transport cfg
  /\ Core.httpClient c <> None.
Proof.
  unfold Core.NewClient. destruct (Cfg.validate cfg); [discriminate|].
  intros [= <-]. cbn. repeat split. now destruct (Cfg.HTTPClient cfg).
Qed.

(** [init] is idempotent: defaults applied twice are defaults applied once. *)
Lemma init_idempotent transport (c : Cfg.Config) :
  Cfg.init transport (Cfg.init transport c) = Cfg.init transport c.
Proof.
  destruct c as [lg ak li ch ek ck ua bu hc mr tm]. unfold Cfg.init; cbn.
  destruct hc; cbn;
    repeat match goal with
      | |- context [String.eqb ?a ""] =>
          destruct (String.eqb_spec a ""); cbn; try congruence
      | |- context [Z.ltb ?a 1] =>
          destruct (Z.ltb_spec a 1); cbn; try lia
      end; reflexivity.
Qed.

(** ** Playback and signed URLs *)

Lemma TrimRight_slash_empty (s : string) :
  TrimRight s "/" = "" <-> all_slashes s = true.
Proof.
  induction s as [|c s IH]; [easy|].
  cbn [TrimRight all_slashes contains_byte]. rewrite orb_false_r.
  destruct (TrimRight s "/") as [|e t] eqn:E.
  - destruct (Ascii.eqb c "/"); cbn; [tauto | easy].
  - rewrite andb_true_iff. split; [discriminate|].
    intros [_ H]. now apply IH in H.
Qed.

Lemma HasSuffix_app_nonempty (a h : string) (c : ascii) :
  h <> "" -> HasSuffix (a +:+ h) (String c "") = HasSuffix h (String c "").
Proof.
  intros Hh. induction a as [|d a IH]; [reflexivity|].
  rewrite app_cons_s. destruct (a +:+ h) as [|e t] eqn:E.
  - destruct a, h; try discriminate. now destruct Hh.
  - now rewrite HasSuffix_cons.
Qed.

(** C9 at the failing input.  The hostname ["/"] is configured: [NewClient]
    accepts it and [cdnBase] finds it not empty, then strips it to the empty
    string.  The playlist URL is ["https:///video-abc/playlist.m3u8"]: the
    slash before the video id follows the two slashes of the scheme, so the
    URL has the doubled slash ["//video-abc"] that the test of [cdnBase]
    forbids ([TestCDNBase_TrailingSlashOnHostname]), and so has the thumbnail
    URL, on which that test looks for it. *)
Lemma HLSPlaylistURL_slash_host :
  Core.NewClient fails (Some (cdn_config "/")) = (Some slash_host_client, None)
  /\ GetUrl.HLSPlaylistURL slash_host_client "video-abc"
     = ("https:///video-abc/playlist.m3u8", None)
  /\ Contains (fst (GetUrl.HLSPlaylistURL slash_host_client "video-abc"))
       "//video-abc" = true
  /\ HasSuffix ("https://" +:+ TrimRight "/" "/") "/" = true
  /\ Contains (fst (Playback.ThumbnailURL slash_host_client "video-abc"))
       "//video-abc" = true.
Proof. split; [reflexivity|]. vm_compute. now repeat split. Qed.

(** Where [HLSPlaylistURL] does strip the hostname as intended.  For a
    configured CDN hostname and a non-blank video id, [HLSPlaylistURL]
    returns ["https://"], the hostname without its trailing slashes, ["/"],
    the video id and ["/playlist.m3u8"].  The stripped hostname never ends in
    a slash; it is empty exactly when the hostname is made of slashes only,
    and otherwise the slash before the video id does not follow another
    slash. *)
Theorem HLSPlaylistURL_format (c : Core.Client) (videoID : string) :
  Cfg.CDNHostname (Core.config c) <> "" ->
  TrimSpace videoID <> "" ->
  let host := TrimRight (Cfg.CDNHostname (Core.config c)) "/" in
  GetUrl.HLSPlaylistURL c videoID
  = ("https://" +:+ host +:+ "/" +:+ videoID +:+ "/playlist.m3u8", None)
  /\ HasSuffix host "/" = false
  /\ (host = "" <-> all_slashes (Cfg.CDNHostname (Core.config c)) = true)
  /\ (all_slashes (Cfg.CDNHostname (Core.config c)) = false ->
      HasSuffix ("https://" +:+ host) "/" = false).
Proof.
  intros Hh Hv host. unfold GetUrl.HLSPlaylistURL, GetUrl.cdnBase.
  destruct (String.eqb_spec (TrimSpace videoID) ""); [contradiction|].
  destruct (String.eqb_spec (Cfg.CDNHostname (Core.config c)) ""); [contradiction|].
  fold host. split; [|split; [|split]].
  - now rewrite !app_assoc_s.
  - now apply TrimRight_no_trailing.
  - apply TrimRight_slash_empty.
  - intros Hs. rewrite HasSuffix_app_nonempty.
    + now apply TrimRight_no_trailing.
    + intros E. apply TrimRight_slash_empty in E. congruence.
Qed.

(** The playlist URL for a hostname that ends in two slashes. *)
Lemma HLSPlaylistURL_format_witness :
  GetUrl.HLSPlaylistURL sample_client "video-abc"
  = ("https://vz-abc123.b-cdn.net/video-abc/playlist.m3u8", None)
  /\ HasSuffix ("https://" +:+ TrimRight "vz-abc123.b-cdn.net//" "/") "/" = false.
Proof.
  assert (H1 : Cfg.CDNHostname (Core.config sample_client) <> "") by (now vm_compute).
  assert (H2 : TrimSpace "video-abc" <> "") by (now vm_compute).
  destruct (HLSPlaylistURL_format sample_client "video-abc" H1 H2) as (E & _ & _ & S).
  split; [exact E | apply S; reflexivity].
Defined.

(** C4.  For a client with a CDN hostname and a CDN token key and a
    non-blank video id, [SignedHLSURL] signs the directory path
    ["/{videoID}/"] and returns
    ["https://{host}/bcdn_token={token}&expires={expiry}&token_path={escaped
    directory path}/{videoID}/playlist.m3u8"], where [host] is the hostname
    without its trailing slashes; the result ends with ["/playlist.m3u8"] and
    contains ["token_path="]. *)
Theorem SignedHLSURL_format (c : Core.Client) (now : Z) (videoID : string)
    (ttl : Z) (opts : list Signed.SignedURLOption) :
  TrimSpace videoID <> "" ->
  Cfg.CDNHostname (Core.config c) <> "" ->
  Cfg.CDNTokenKey (Core.config c) <> "" ->
  let host := TrimRight (Cfg.CDNHostname (Core.config c)) "/" in
  let dirPath := "/" +:+ videoID +:+ "/" in
  let expiry := Signed.expiry_at now ttl in
  let token :=
    fst (Signed.signCDNToken (Cfg.CDNTokenKey (Core.config c)) dirPath expiry
           (Signed.apply_options opts)) in
  let url :=
    "https://" +:+ host +:+ "/bcdn_token=" +:+ token +:+ "&expires="
      +:+ FormatInt expiry +:+ "&token_path=" +:+ Url.QueryEscape dirPath
      +:+ "/" +:+ videoID +:+ "/playlist.m3u8" in
  Signed.SignedHLSURL c now videoID ttl opts = (url, None)
  /\ HasSuffix url "/playlist.m3u8" = true
  /\ Contains url "token_path=" = true.
Proof.
  intros Hv Hh Hk host dirPath expiry token url.
  split; [|split].
  - unfold Signed.SignedHLSURL.
    destruct (String.eqb_spec (TrimSpace videoID) ""); [contradiction|].
    destruct (String.eqb_spec (Cfg.CDNHostname (Core.config c)) ""); [contradiction|].
    destruct (String.eqb_spec (Cfg.CDNTokenKey (Core.config c)) ""); [contradiction|].
    reflexivity.
  - unfold url. rewrite <- !app_assoc_s. apply HasSuffix_app.
  - replace url with
      (("https://" +:+ host +:+ "/bcdn_token=" +:+ token +:+ "&expires="
          +:+ FormatInt expiry +:+ "&")
       +:+ "token_path="
       +:+ (Url.QueryEscape dirPath +:+ "/" +:+ videoID +:+ "/playlist.m3u8"))
      by (unfold url; rewrite !app_assoc_s; reflexivity).
    apply Contains_app.
Qed.

(** The signed URL of ["video-abc"] for one hour from a clock at
    1700000000.123456789 s. *)
Lemma SignedHLSURL_format_witness :
  Signed.SignedHLSURL sample_client 1700000000123456789 "video-abc" 3600000000000 []
  = ("https://vz-abc123.b-cdn.net/bcdn_token=HPrbxJNi8lvLSM6LCpjztjWFI2LtHUBPZW6D-qBVN8k&expires=1700003600&token_path=%2Fvideo-abc%2F/video-abc/playlist.m3u8",
     None).
Proof.
  assert (H1 : TrimSpace "video-abc" <> "") by (now vm_compute).
  assert (H2 : Cfg.CDNHostname (Core.config sample_client) <> "") by (now vm_compute).
  assert (H3 : Cfg.CDNTokenKey (Core.config sample_client) <> "") by (now vm_compute).
  destruct (SignedHLSURL_format sample_client 1700000000123456789 "video-abc"
              3600000000000 [] H1 H2 H3) as (E & _).
  rewrite E. vm_compute. reflexivity.
Defined.

(** ** The query builder *)

Lemma call_req (q : QB.queryBuilder) (s : QB.setter) : QB.req (QB.call q s) = QB.req q.
Proof.
  destruct s as [key [b|] | key v | key v]; cbn; try reflexivity.
  - unfold QB.setString. now destruct (negb _).
  - unfold QB.setStrings. now destruct (0 <? length v)%nat.
Qed.

Lemma chain_req (calls : list QB.setter) (q : QB.queryBuilder) :
  QB.req (QB.chain q calls) = QB.req q.
Proof.
  revert q. induction calls as [|s calls IH]; intros q; [reflexivity|].
  cbn. unfold QB.chain in IH. now rewrite IH, call_req.
Qed.

(** C3.  For every request and every chain of [setBool], [setString] and
    [setStrings] calls on the builder made by [buildQuery] over it, the
    request behind the builder's pointer is the request as it was when the
    builder was made; in particular its query string is unchanged. *)
Theorem setters_leave_request (r : Http.Request) (calls : list QB.setter) :
  QB.req (QB.chain (QB.buildQuery r) calls) = r
  /\ QB.rawQuery (QB.chain (QB.buildQuery r) calls) = Http.RawQuery (Http.ReqURL r).
Proof.
  unfold QB.rawQuery. rewrite chain_req. now split.
Qed.

(** ** The CDN token *)

Lemma prefix_empty (s : string) : String.prefix "" s = true.
Proof. now destruct s. Qed.

(** [ReplaceAll] with a pattern of one byte. *)
Lemma ReplaceAll_char (s : string) (c : ascii) (new : string) :
  ReplaceAll s (String c "") new = subst_char c new s.
Proof.
  unfold ReplaceAll. induction s as [|d s IH]; [reflexivity|].
  cbn [replace_from subst_char String.prefix String.length Nat.pred].
  rewrite prefix_empty, IH.
  destruct (ascii_dec c d) as [->|Hne].
  - now rewrite Ascii.eqb_refl.
  - destruct (Ascii.eqb_spec d c) as [->|_]; [now destruct Hne | reflexivity].
Qed.

Lemma subst_char_app (c : ascii) (new s t : string) :
  subst_char c new (s +:+ t) = subst_char c new s +:+ subst_char c new t.
Proof.
  induction s as [|d s IH]; [reflexivity|].
  rewrite app_cons_s. cbn [subst_char]. now rewrite IH, app_assoc_s.
Qed.

(** The four replacements of [signCDNToken], one after the other, are the
    URL-safe form. *)
Lemma replacements_url_safe (s : string) :
  ReplaceAll (ReplaceAll (ReplaceAll (ReplaceAll s (String "010" "") "") "+" "-") "/" "_") "=" ""
  = TokenSpec.url_safe s.
Proof.
  rewrite !ReplaceAll_char. induction s as [|d s IH]; [reflexivity|].
  cbn [subst_char TokenSpec.url_safe]. rewrite !subst_char_app, IH. f_equal.
  unfold TokenSpec.url_safe_char.
  destruct (Ascii.eqb_spec d "010") as [->|H1]; [reflexivity|].
  destruct (Ascii.eqb_spec d "+") as [->|H2]; [reflexivity|].
  destruct (Ascii.eqb_spec d "/") as [->|H3]; [reflexivity|].
  destruct (Ascii.eqb_spec d "=") as [->|H4]; [reflexivity|].
  cbn [subst_char]. rewrite !app_nil_r_s.
  repeat (cbn [subst_char];
          match goal with
          | |- context [Ascii.eqb d ?x] =>
              destruct (Ascii.eqb_spec d x); [congruence|]
          end; rewrite ?app_nil_r_s).
  reflexivity.
Qed.

(** The parameter string that [signCDNToken] builds from its map. *)
Lemma signCDNToken_params (opts : Signed.SignedURLOptions) :
  let m0 : Url.Values := ∅ in
  let m1 := if negb (String.eqb (Signed.CountriesAllowed opts) "")
            then Url.Set_ m0 "token_countries" (Signed.CountriesAllowed opts) else m0 in
  let m2 := if negb (String.eqb (Signed.CountriesBlocked opts) "")
            then Url.Set_ m1 "token_countries_blocked" (Signed.CountriesBlocked opts) else m1 in
  Join (map (fun k => k +:+ "=" +:+ Url.Get m2 k) (Url.sorted_keys m2)) "&"
  = TokenSpec.extra_params opts.
Proof.
  unfold TokenSpec.extra_params, TokenSpec.extra_pairs.
  destruct opts as [ip ca cb]; cbn [Signed.CountriesAllowed Signed.CountriesBlocked].
  destruct (String.eqb ca ""), (String.eqb cb ""); vm_compute; reflexivity.
Qed.

Lemma optional_app (s t : string) : s +:+ TokenSpec.optional t = s +:+ t.
Proof.
  unfold TokenSpec.optional. now destruct (String.eqb_spec t "") as [->|].
Qed.

(** C1.  [signCDNToken] returns, without error, the URL-safe form of the
    standard base64 encoding of the SHA-256 digest of: the key, the path, the
    decimal expiry, the user IP when it is not empty, and the extra
    parameters when there are any, concatenated without separator; the extra
    parameters are [token_countries=...] and [token_countries_blocked=...],
    each only for a non-empty value, in ascending order of the keys, joined
    with ['&'], with the values as they are. *)
Theorem signCDNToken_spec (key path : string) (expiry : Z)
    (opts : Signed.SignedURLOptions) :
  Signed.signCDNToken key path expiry opts
  = (TokenSpec.token key path expiry opts, None).
Proof.
  unfold Signed.signCDNToken, TokenSpec.token, TokenSpec.hashable.
  cbv zeta. rewrite replacements_url_safe.
  pose proof (signCDNToken_params opts) as Hp. cbv zeta in Hp. rewrite Hp.
  do 3 f_equal. f_equal.
  rewrite <- !app_assoc_s, !optional_app.
  destruct (String.eqb_spec (Signed.UserIP opts) "") as [->|_];
    destruct (String.eqb_spec (TokenSpec.extra_params opts) "") as [->|_];
    cbn [negb]; now rewrite ?app_nil_r_s.
Qed.

(** The rounds of [blocks] are enough: with as many rounds as there are
    words, or more, every word is taken. *)
Lemma blocks_fuel (fuel fuel' : nat) (hash words : list Z) :
  (length words <= fuel)%nat -> (length words <= fuel')%nat ->
  Sha256.blocks fuel hash words = Sha256.blocks fuel' hash words.
Proof.
  revert fuel' hash words. induction fuel as [|fuel IH]; intros fuel' hash words H H'.
  - destruct words; [now destruct fuel' | cbn in H; lia].
  - destruct words as [|w ws]; [now destruct fuel'|].
    destruct fuel' as [|fuel']; [cbn in H'; lia|].
    cbn [Sha256.blocks]. apply IH.
    + pose proof (length_skipn 16 (w :: ws)). cbn [length] in *. lia.
    + pose proof (length_skipn 16 (w :: ws)). cbn [length] in *. lia.
Qed.

(** The keys of the extra parameters are in ascending order. *)
Lemma extra_keys_ascending :
  String.le "token_countries" "token_countries_blocked".
Proof. now vm_compute. Qed.

(** The token of a known input, computed apart with a SHA-256 and base64
    library. *)
Example signCDNToken_sample :
  Signed.signCDNToken "cdn-secret" "/video-abc/" 1700000000
    (Signed.apply_options
       [Signed.WithCountriesAllowed "US,GB"; Signed.WithCountriesBlocked "CN";
        Signed.WithUserIP "1.2.3.4"])
  = ("7NBlqsCFVEDOrc85U2uzTs3E2JVeL8BhjJqmOrtm4dc", None).
Proof. vm_compute. reflexivity. Qed.

(** The first and the last round constant, and the first word of the initial
    hash value (FIPS 180-4, sections 4.2.2 and 5.3.3). *)
Example K_H0_sample :
  nth 0 Sha256.K 0 = 0x428a2f98 /\ nth 63 Sha256.K 0 = 0xc67178f2
  /\ nth 0 Sha256.H0 0 = 0x6a09e667 /\ length Sha256.K = 64%nat.
Proof. now vm_compute. Qed.

(** The digest of ["abc"] (FIPS 180-4, appendix B.1). *)
Example Sum256_abc :
  Base64.HexEncodeToString (Sha256.Sum256 (Sha256.bytes_of_string "abc"))
  = "ba7816bf8f01cfea414140de5dae2223b00361a396177a9cb410ff61f20015ad".
Proof. vm_compute. reflexivity. Qed.

(** ** Query strings: what [ParseQuery] reads back from [Encode] *)

Section QueryRoundTrip.

Import Url QB QuerySpec.

(** The 256 bytes, one after the other. *)
Ltac each_ascii c :=
  destruct c as [[] [] [] [] [] [] [] []].

Lemma hex_roundtrip (c : ascii) :
  ishex (upperhex (N_of_ascii c / 16)) && ishex (upperhex (N_of_ascii c mod 16)) = true
  /\ ascii_of_N (unhex (upperhex (N_of_ascii c / 16)) * 16
                 + unhex (upperhex (N_of_ascii c mod 16))) = c.
Proof. each_ascii c; vm_compute; split; reflexivity. Qed.

Lemma unreserved_plain (c : ascii) :
  shouldEscape c = false ->
  Ascii.eqb c "%" = false /\ Ascii.eqb c "+" = false /\ Ascii.eqb c "&" = false
  /\ Ascii.eqb c "=" = false /\ Ascii.eqb c ";" = false.
Proof. each_ascii c; vm_compute; intros H; try discriminate H; repeat split. Qed.

Lemma upperhex_plain (c : ascii) (x : ascii) :
  x = "&"%char \/ x = "="%char \/ x = ";"%char ->
  Ascii.eqb x (upperhex (N_of_ascii c / 16)) = false
  /\ Ascii.eqb x (upperhex (N_of_ascii c mod 16)) = false.
Proof. intros [-> | [-> | ->]]; each_ascii c; vm_compute; split; reflexivity. Qed.

Lemma QueryUnescape_QueryEscape (s : string) : QueryUnescape (QueryEscape s) = Some s.
Proof.
  induction s as [|c s IH]; [reflexivity|].
  cbn [QueryEscape]. destruct (shouldEscape c) eqn:E.
  - destruct (Ascii.eqb_spec c " ") as [->|Hsp].
    + cbn [QueryUnescape]. rewrite IH. reflexivity.
    + destruct (hex_roundtrip c) as [Hh Hc].
      cbn [QueryUnescape]. rewrite Ascii.eqb_refl, Hh, Hc, IH. reflexivity.
  - destruct (unreserved_plain c E) as (H1 & H2 & _).
    cbn [QueryUnescape]. rewrite H1, H2, IH. reflexivity.
Qed.

Lemma QueryEscape_no_separator (s : string) (x : ascii) :
  x = "&"%char \/ x = "="%char \/ x = ";"%char ->
  contains_byte x (QueryEscape s) = false.
Proof.
  intros Hx. induction s as [|c s IH]; [reflexivity|].
  cbn [QueryEscape]. destruct (shouldEscape c) eqn:E.
  - destruct (Ascii.eqb c " ").
    + cbn [contains_byte]. rewrite IH.
      destruct Hx as [-> | [-> | ->]]; reflexivity.
    + destruct (upperhex_plain c x Hx) as [H1 H2].
      cbn [contains_byte]. rewrite H1, H2, IH.
      destruct Hx as [-> | [-> | ->]]; reflexivity.
  - destruct (unreserved_plain c E) as (_ & _ & H3 & H4 & H5).
    cbn [contains_byte]. rewrite IH, orb_false_r, Ascii.eqb_sym.
    destruct Hx as [-> | [-> | ->]]; assumption.
Qed.

Lemma contains_byte_app (x : ascii) (s t : string) :
  contains_byte x (s +:+ t) = contains_byte x s || contains_byte x t.
Proof.
  induction s as [|c s IH]; [reflexivity|].
  rewrite app_cons_s. cbn [contains_byte]. now rewrite IH, orb_assoc.
Qed.

Lemma Cut_app (a b : string) (sep : ascii) :
  contains_byte sep a = false -> Cut (a +:+ String sep b) sep = (a, b).
Proof.
  induction a as [|c a IH]; intros H.
  - rewrite app_nil_l_s. cbn [Cut]. now rewrite Ascii.eqb_refl.
  - cbn [contains_byte] in H. apply orb_false_iff in H as [Hc Ha].
    rewrite app_cons_s. cbn [Cut]. rewrite Ascii.eqb_sym, Hc, IH by assumption.
    reflexivity.
Qed.

(** The first piece of a query is what [Cut] cuts off; the other pieces are
    those of the rest. *)
Lemma pieces_Cut (s : string) :
  pieces s
  = fst (Cut s "&")
    :: (if contains_byte "&" s then pieces (snd (Cut s "&")) else [])
  /\ (contains_byte "&" s = false -> snd (Cut s "&") = "")
  /\ (String.length (snd (Cut s "&")) <= Nat.pred (String.length s))%nat.
Proof.
  induction s as [|c s (IH1 & IH2 & IH3)]; [now cbn|].
  cbn [pieces Cut contains_byte String.length Nat.pred].
  rewrite (Ascii.eqb_sym "&" c).
  destruct (Ascii.eqb c "&"); cbn [orb fst snd]; [repeat split; lia|].
  destruct (Cut s "&") as [before after]; cbn [fst snd] in *.
  rewrite IH1. repeat split; [assumption | lia].
Qed.

(** The loop of [parseQuery] parses the pieces of the query one after the
    other, and its rounds are enough. *)
Lemma parseQuery_pieces (fuel : nat) (m : Values) (query : string) :
  (String.length query <= fuel)%nat ->
  parseQuery fuel m query = fold_left parsePiece (pieces query) m.
Proof.
  revert m query. induction fuel as [|fuel IH]; intros m query Hlen.
  - destruct query; [reflexivity | cbn in Hlen; lia].
  - cbn [parseQuery]. destruct (String.eqb_spec query "") as [->|Hne]; [reflexivity|].
    destruct (pieces_Cut query) as (Hp & Hrest & Hshort).
    destruct (Cut query "&") as [key rest]; cbn [fst snd] in *.
    rewrite Hp. cbn [fold_left].
    destruct (contains_byte "&" query).
    + apply IH. destruct query; [congruence | cbn in *; lia].
    + rewrite Hrest by reflexivity. now destruct fuel.
Qed.

Lemma ParseQuery_pieces (query : string) :
  ParseQuery query = fold_left parsePiece (pieces query) ∅.
Proof. unfold ParseQuery. now apply parseQuery_pieces. Qed.

Lemma pieces_single (p : string) :
  contains_byte "&" p = false -> pieces p = [p].
Proof.
  induction p as [|c p IH]; intros H; [reflexivity|].
  cbn [contains_byte] in H. apply orb_false_iff in H as [Hc Hp].
  cbn [pieces]. rewrite Ascii.eqb_sym, Hc, IH by assumption. reflexivity.
Qed.

Lemma pieces_app (p rest : string) :
  contains_byte "&" p = false ->
  pieces (p +:+ "&" +:+ rest) = p :: pieces rest.
Proof.
  induction p as [|c p IH]; intros H; [reflexivity|].
  cbn [contains_byte] in H. apply orb_false_iff in H as [Hc Hp].
  rewrite app_cons_s. cbn [pieces]. rewrite Ascii.eqb_sym, Hc, IH by assumption.
  reflexivity.
Qed.

Lemma pieces_Join (ps : list string) :
  Forall (fun p => contains_byte "&" p = false) ps -> ps <> [] ->
  pieces (Join ps "&") = ps.
Proof.
  induction 1 as [|p ps Hp Hps IH]; intros Hne; [congruence|].
  destruct ps as [|p' ps'].
  - cbn [Join]. now apply pieces_single.
  - cbn [Join]. cbn [Join] in IH. rewrite pieces_app by assumption.
    f_equal. now apply IH.
Qed.

Lemma parsePiece_empty (m : Values) : parsePiece m "" = m.
Proof. reflexivity. Qed.

Lemma parsePiece_pair (m : Values) (k x : string) :
  parsePiece m (QueryEscape k +:+ "=" +:+ QueryEscape x) = add_value m k x.
Proof.
  unfold parsePiece.
  rewrite !contains_byte_app, !QueryEscape_no_separator by auto.
  cbn [contains_byte orb Ascii.eqb Bool.eqb].
  destruct (String.eqb_spec (QueryEscape k +:+ "=" +:+ QueryEscape x) "") as [E|_].
  { apply (f_equal (contains_byte "=")) in E.
    rewrite !contains_byte_app in E. cbn in E. now rewrite orb_true_r in E. }
  change (QueryEscape k +:+ "=" +:+ QueryEscape x)
    with (QueryEscape k +:+ String "=" (QueryEscape x)).
  rewrite Cut_app by (apply QueryEscape_no_separator; auto).
  now rewrite !QueryUnescape_QueryEscape.
Qed.

Lemma add_values_lookup (l : list string) (m : Values) (k k' : string) :
  add_values m k l !! k'
  = if decide (k = k') then
      match l with
      | [] => m !! k
      | _ => Some (default [] (m !! k) ++ l)
      end
    else m !! k'.
Proof.
  revert m. induction l as [|x l IH]; intros m.
  - cbn. now destruct (decide (k = k')) as [->|].
  - cbn [add_values fold_left]. fold (add_values (add_value m k x) k l).
    rewrite IH. unfold add_value.
    destruct (decide (k = k')) as [->|Hne].
    + rewrite lookup_insert_eq. cbn.
      destruct l; [reflexivity|]. now rewrite <- app_assoc.
    + now rewrite lookup_insert_ne.
Qed.

Lemma fold_encode_key (v : Values) (k : string) (m : Values) :
  fold_left parsePiece (encode_key v k) m = add_values m k (default [] (v !! k)).
Proof.
  unfold encode_key, add_values.
  generalize (default [] (v !! k)) as l. intros l. revert m.
  induction l as [|x l IH]; intros m; [reflexivity|].
  cbn [map fold_left]. rewrite parsePiece_pair. apply IH.
Qed.

Lemma fold_keys (v : Values) (ks : list string) :
  NoDup ks -> forall (m : Values) (k : string),
  (forall k', k' ∈ ks -> m !! k' = None) ->
  fold_left parsePiece (flat_map (encode_key v) ks) m !! k
  = if decide (k ∈ ks) then nonempty (v !! k) else m !! k.
Proof.
  induction 1 as [|k0 ks Hk0 Hnd IH]; intros m k Hm.
  - cbn. destruct (decide (k ∈ [])) as [Hin|_]; [|reflexivity].
    now apply elem_of_nil in Hin.
  - cbn [flat_map]. rewrite fold_left_app, fold_encode_key.
    rewrite IH.
    + rewrite add_values_lookup.
      destruct (decide (k ∈ ks)) as [Hin|Hnin].
      * rewrite decide_True by (now right). reflexivity.
      * destruct (decide (k0 = k)) as [->|Hne].
        -- rewrite decide_True by (now left).
           rewrite (Hm k) by (now left).
           destruct (v !! k) as [[|x l]|]; reflexivity.
        -- rewrite decide_False; [reflexivity|].
           rewrite elem_of_cons. intros [->|?]; congruence.
    + intros k' Hk'. rewrite add_values_lookup.
      rewrite decide_False by (intros ->; contradiction).
      apply Hm. now right.
Qed.

Lemma encode_key_no_amp (v : Values) (ks : list string) :
  Forall (fun p => contains_byte "&" p = false) (flat_map (encode_key v) ks).
Proof.
  apply Forall_forall. intros p Hp. apply list_elem_of_In in Hp.
  apply in_flat_map in Hp as (k & _ & Hp).
  unfold encode_key in Hp. apply in_map_iff in Hp as (x & <- & _).
  rewrite !contains_byte_app, !QueryEscape_no_separator by auto. reflexivity.
Qed.

Lemma sorted_keys_NoDup (v : Values) : NoDup (sorted_keys v).
Proof.
  unfold sorted_keys. rewrite merge_sort_Permutation.
  apply (NoDup_fst_map_to_list v).
Qed.

Lemma elem_of_sorted_keys (v : Values) (k : string) :
  k ∈ sorted_keys v <-> is_Some (v !! k).
Proof.
  unfold sorted_keys. rewrite merge_sort_Permutation.
  change (map fst (map_to_list v)) with ((map_to_list v).*1).
  rewrite list_elem_of_fmap. split.
  - intros ([k' l] & -> & Hin). apply elem_of_map_to_list in Hin. eauto.
  - intros [l Hl]. exists (k, l). split; [reflexivity|].
    now apply elem_of_map_to_list.
Qed.

(** What [ParseQuery] reads back from [Encode]: the keys that have a value,
    with their values in order. *)
Lemma ParseQuery_Encode (v : Values) (k : string) :
  ParseQuery (Encode v) !! k = nonempty (v !! k).
Proof.
  rewrite ParseQuery_pieces. unfold Encode.
  set (ps := flat_map (encode_key v) (sorted_keys v)).
  assert (Hfold : fold_left parsePiece (pieces (Join ps "&")) ∅
                  = fold_left parsePiece ps ∅).
  { destruct ps as [|p ps'] eqn:E; [reflexivity|].
    rewrite pieces_Join; [reflexivity| |discriminate].
    rewrite <- E. apply encode_key_no_amp. }
  rewrite Hfold. unfold ps.
  rewrite (fold_keys v _ (sorted_keys_NoDup v) ∅ k)
    by (intros; apply lookup_empty).
  destruct (decide (k ∈ sorted_keys v)) as [Hin|Hnin]; [reflexivity|].
  rewrite lookup_empty.
  destruct (v !! k) as [l|] eqn:Hv; [|reflexivity].
  destruct Hnin. apply elem_of_sorted_keys. rewrite Hv. eauto.
Qed.

Lemma nonempty_id (v : Values) (k : string) :
  no_empty v -> nonempty (v !! k) = v !! k.
Proof.
  intros H. specialize (H k). now destruct (v !! k) as [[|x l]|].
Qed.

Lemma add_value_no_empty (m : Values) (k x : string) :
  no_empty m -> no_empty (add_value m k x).
Proof.
  intros H k'. unfold add_value. destruct (decide (k = k')) as [->|Hne].
  - rewrite lookup_insert_eq. now destruct (default [] (m !! k')).
  - rewrite lookup_insert_ne by assumption. apply H.
Qed.

Lemma parsePiece_no_empty (m : Values) (piece : string) :
  no_empty m -> no_empty (parsePiece m piece).
Proof.
  intros H. unfold parsePiece.
  destruct (contains_byte ";" piece); [assumption|].
  destruct (String.eqb piece ""); [assumption|].
  destruct (Cut piece "=") as [key value].
  destruct (QueryUnescape key); [|assumption].
  destruct (QueryUnescape value); [|assumption].
  now apply add_value_no_empty.
Qed.

Lemma ParseQuery_no_empty (query : string) : no_empty (ParseQuery query).
Proof.
  rewrite ParseQuery_pieces.
  assert (H : no_empty (∅ : Values)) by (intros k; now rewrite lookup_empty).
  revert H. generalize (∅ : Values) as m.
  induction (pieces query) as [|p ps IH]; intros m H; [assumption|].
  cbn [fold_left]. apply IH. now apply parsePiece_no_empty.
Qed.

Lemma Set_no_empty (v : Values) (k x : string) : no_empty v -> no_empty (Set_ v k x).
Proof.
  intros H k'. unfold Set_. destruct (decide (k = k')) as [->|Hne].
  - now rewrite lookup_insert_eq.
  - rewrite lookup_insert_ne by assumption. apply H.
Qed.

Lemma call_sets (q : queryBuilder) (s : setter) :
  call q s = match sets s with
             | Some (k, x) => {| req := req q; values := Set_ (values q) k x |}
             | None => q
             end.
Proof.
  destruct s as [key [b|] | key v | key [|x l]]; cbn; try reflexivity.
  unfold setString. now destruct (String.eqb (TrimSpace v) "").
Qed.

Lemma call_no_empty (q : queryBuilder) (s : setter) :
  no_empty (values q) -> no_empty (values (call q s)).
Proof.
  intros H. rewrite call_sets. destruct (sets s) as [[k x]|]; [|assumption].
  now apply Set_no_empty.
Qed.

Lemma chain_no_empty (calls : list setter) (q : queryBuilder) :
  no_empty (values q) -> no_empty (values (chain q calls)).
Proof.
  revert q. induction calls as [|s calls IH]; intros q H; [assumption|].
  cbn. apply IH. now apply call_no_empty.
Qed.

(** The values of a key after a chain of calls: the value written last, or
    the values that the builder had. *)
Lemma chain_values (calls : list setter) (q : queryBuilder) (k : string) :
  values (chain q calls) !! k
  = match written calls k with
    | Some x => Some [x]
    | None => values q !! k
    end.
Proof.
  revert q. induction calls as [|s calls IH]; intros q; [reflexivity|].
  cbn [chain fold_left written]. fold (chain (call q s) calls). rewrite IH.
  destruct (written calls k); [reflexivity|].
  rewrite call_sets. destruct (sets s) as [[k' x]|]; [|reflexivity].
  cbn [values]. unfold Set_.
  destruct (String.eqb_spec k' k) as [->|Hne].
  - now rewrite lookup_insert_eq.
  - now rewrite lookup_insert_ne.
Qed.

Lemma rawQuery_apply (q : queryBuilder) : rawQuery (apply q) = Encode (values q).
Proof. reflexivity. Qed.

Lemma apply_apply (q : queryBuilder) : apply (apply q) = apply q.
Proof. reflexivity. Qed.


(** C7, as stated, fails: on a request whose query string has the key [a]
    twice, two calls of [apply] after a setter on another key leave a query
    string in which [a] occurs twice. *)
Lemma apply_keeps_duplicates :
  let q := chain (buildQuery twice_a_request) [SetString "lang" "en"] in
  rawQuery (apply (apply q)) = "a=1&a=2&lang=en"
  /\ ParseQuery (rawQuery (apply (apply q))) !! "a" = Some ["1"; "2"]
  /\ ~ (forall k, (key_count (rawQuery (apply (apply q))) k <= 1)%nat).
Proof.
  cbv zeta. split; [now vm_compute|]. split; [now vm_compute|].
  intros H. specialize (H "a"). vm_compute in H. lia.
Qed.

(** C7, amended.  After any chain of setter calls on the builder of any
    request, [apply] called twice leaves the request as [apply] called once
    does.  The keys are counted as [URL.Query] reads a query string, which
    is how the builder reads the one of the request: in the resulting query
    string a key that a setter wrote is read with one value, the one written
    last; every other key is read with the values that [URL.Query] read for it
    from the query string of the request, as many and in the same order (the
    pairs that [URL.Query] passes over there are not among them).  So [apply]
    duplicates no key: when no key is read twice from the query string of the
    request, none is read twice from the result. *)
Theorem apply_idempotent (r : Http.Request) (calls : list setter) :
  let q := chain (buildQuery r) calls in
  apply (apply q) = apply q
  /\ rawQuery (apply (apply q)) = rawQuery (apply q)
  /\ (forall k,
       ParseQuery (rawQuery (apply (apply q))) !! k
       = match written calls k with
         | Some x => Some [x]
         | None => ParseQuery (Http.RawQuery (Http.ReqURL r)) !! k
         end)
  /\ (forall k,
       key_count (rawQuery (apply (apply q))) k
       = match written calls k with
         | Some _ => 1%nat
         | None => key_count (Http.RawQuery (Http.ReqURL r)) k
         end)
  /\ ((forall k, (key_count (Http.RawQuery (Http.ReqURL r)) k <= 1)%nat) ->
      forall k, (key_count (rawQuery (apply (apply q))) k <= 1)%nat).
Proof.
  intros q. split; [reflexivity|]. split; [reflexivity|].
  assert (H : forall k,
             ParseQuery (rawQuery (apply (apply q))) !! k
             = match written calls k with
               | Some x => Some [x]
               | None => ParseQuery (Http.RawQuery (Http.ReqURL r)) !! k
               end).
  { intros k. rewrite apply_apply, rawQuery_apply, ParseQuery_Encode.
    rewrite nonempty_id by (apply chain_no_empty, ParseQuery_no_empty).
    unfold q. now rewrite chain_values. }
  assert (Hc : forall k,
             key_count (rawQuery (apply (apply q))) k
             = match written calls k with
               | Some _ => 1%nat
               | None => key_count (Http.RawQuery (Http.ReqURL r)) k
               end).
  { intros k. unfold key_count. rewrite H. now destruct (written calls k). }
  split; [exact H|]. split; [exact Hc|].
  intros Hr k. rewrite Hc. destruct (written calls k); [lia | apply Hr].
Qed.

(** The test of the package: one setter on a request without query string,
    [apply] twice; the query string is the one of a single [apply], the key
    is there exactly once, and no key is there twice. *)
Lemma apply_idempotent_witness :
  let q := chain (buildQuery sample_request) [SetString "lang" "en"] in
  rawQuery (apply (apply q)) = rawQuery (apply q)
  /\ key_count (rawQuery (apply (apply q))) "lang" = 1%nat
  /\ (forall k, (key_count (rawQuery (apply (apply q))) k <= 1)%nat).
Proof.
  destruct (apply_idempotent sample_request [SetString "lang" "en"])
    as (_ & Hsame & _ & Hcount & Hnone).
  split; [exact Hsame|]. split; [exact (Hcount "lang")|].
  apply Hnone.
  intros k. unfold key_count.
  change (Http.RawQuery (Http.ReqURL sample_request)) with "".
  rewrite ParseQuery_pieces. cbn [pieces fold_left]. rewrite parsePiece_empty.
  rewrite lookup_empty. cbn. lia.
Defined.

(** C8, as stated, fails: the key [lang] is in the query string of the
    request, or was written by an earlier call; a call with a [nil] pointer,
    a blank string or an empty list for [lang] leaves it in the final query
    string. *)
Lemma skipped_call_keeps_key :
  TrimSpace "   " = ""
  /\ rawQuery (apply (setString "lang" "   " (buildQuery lang_request))) = "lang=fr"
  /\ ParseQuery (rawQuery (apply (setString "lang" "   " (buildQuery lang_request))))
       !! "lang" = Some ["fr"]
  /\ ParseQuery (rawQuery (apply (setBool "lang" None (buildQuery lang_request))))
       !! "lang" = Some ["fr"]
  /\ ParseQuery (rawQuery (apply (setStrings "lang" [] (buildQuery lang_request))))
       !! "lang" = Some ["fr"]
  /\ rawQuery (apply (setString "lang" ""
                 (setString "lang" "en" (buildQuery sample_request)))) = "lang=en".
Proof. now vm_compute. Qed.

(** C8, amended.  A call of [setBool] with a [nil] pointer, of [setString]
    with an empty or blank value, or of [setStrings] with a [nil] or empty
    list leaves the builder as it was: the query string after [apply] is the
    one without the call.  A key that the builder did not hold before the
    call is absent from it (not set to an empty value); a key that the
    request or an earlier call supplied keeps its values. *)
Theorem skipped_call_is_noop (q : queryBuilder) (key : string) (s : setter) :
  skipped key s ->
  call q s = q
  /\ rawQuery (apply (call q s)) = rawQuery (apply q)
  /\ ParseQuery (rawQuery (apply (call q s))) !! key = nonempty (values q !! key)
  /\ (values q !! key = None ->
      ParseQuery (rawQuery (apply (call q s))) !! key = None
      /\ key_count (rawQuery (apply (call q s))) key = 0%nat).
Proof.
  intros Hs.
  assert (E : call q s = q).
  { destruct Hs as [|v Hv|]; cbn; try reflexivity.
    unfold setString. now rewrite Hv. }
  rewrite E. split; [reflexivity|]. split; [reflexivity|].
  unfold key_count. rewrite rawQuery_apply, ParseQuery_Encode.
  split; [reflexivity|]. now intros ->.
Qed.

(** The three calls that are passed over, on the builder of a request
    without query string. *)
Lemma skipped_call_is_noop_witness :
  rawQuery (apply (setBool "jitEnabled" None (buildQuery sample_request))) = ""
  /\ ParseQuery (rawQuery (apply (setString "sourceLanguage" "   "
                                   (buildQuery sample_request))))
       !! "sourceLanguage" = None
  /\ key_count (rawQuery (apply (setStrings "resolutions" []
                                   (buildQuery sample_request))))
       "resolutions" = 0%nat.
Proof.
  split; [|split].
  - destruct (skipped_call_is_noop (buildQuery sample_request) "jitEnabled"
                (SetBool "jitEnabled" None) (skipped_nil_bool _)) as (_ & E & _).
    cbn [call] in E. rewrite E. now vm_compute.
  - assert (Hb : TrimSpace "   " = "") by (now vm_compute).
    apply (skipped_call_is_noop (buildQuery sample_request) "sourceLanguage"
             (SetString "sourceLanguage" "   ") (skipped_blank_string _ _ Hb)).
    now vm_compute.
  - apply (skipped_call_is_noop (buildQuery sample_request) "resolutions"
             (SetStrings "resolutions" []) (skipped_no_strings _)).
    now vm_compute.
Defined.

End QueryRoundTrip.

(** * More properties *)

(** A case for every byte. *)
Ltac every_byte c :=
  destruct c as [[] [] [] [] [] [] [] []].

(** ** The shape of the tokens *)

Section TokenShape.

Import Upload.


Lemma round_length (st : list Z) (kw : Z * Z) :
  length st = 8%nat -> length (Sha256.round st kw) = 8%nat.
Proof.
  intros H. do 9 (destruct st as [|? st]; try discriminate H). reflexivity.
Qed.

Lemma fold_round_length (l : list (Z * Z)) (st : list Z) :
  length st = 8%nat -> length (fold_left Sha256.round l st) = 8%nat.
Proof.
  revert st. induction l as [|kw l IH]; intros st H; [exact H|].
  cbn [fold_left]. apply IH. now apply round_length.
Qed.

Lemma compress_length (hash block : list Z) :
  length hash = 8%nat -> length (Sha256.compress hash block) = 8%nat.
Proof.
  intros H. unfold Sha256.compress.
  rewrite length_map, length_combine, fold_round_length by assumption. lia.
Qed.

Lemma blocks_length (fuel : nat) (hash words : list Z) :
  length hash = 8%nat -> length (Sha256.blocks fuel hash words) = 8%nat.
Proof.
  revert hash words. induction fuel as [|fuel IH]; intros hash words H; [exact H|].
  destruct words as [|w ws]; [exact H|].
  cbn [Sha256.blocks]. apply IH. now apply compress_length.
Qed.

Lemma be_bytes_bytes (n : nat) (x : Z) : Forall is_byte (Sha256.be_bytes n x).
Proof.
  induction n as [|n IH]; constructor; [|exact IH].
  unfold is_byte. apply Z.mod_pos_bound. lia.
Qed.

(** The digest has 32 bytes. *)
Lemma Sum256_shape (msg : list Z) :
  length (Sha256.Sum256 msg) = 32%nat /\ Forall is_byte (Sha256.Sum256 msg).
Proof.
  unfold Sha256.Sum256.
  set (h := Sha256.blocks _ _ _).
  assert (Hh : length h = 8%nat) by (apply blocks_length; reflexivity).
  split.
  - do 9 (destruct h as [|? h]; try discriminate Hh). reflexivity.
  - clear Hh. induction h as [|w h IH]; [constructor|].
    cbn [flat_map]. apply Forall_app. split; [apply be_bytes_bytes | exact IH].
Qed.
Lemma lt_pow2_log2 (x n : Z) : 0 < n -> 0 <= x < 2 ^ n -> Z.log2 x < n.
Proof.
  intros Hn [H0 Hx]. destruct (Z.eq_dec x 0) as [->|Hne]; [now cbn|].
  apply Z.log2_lt_pow2; lia.
Qed.

Lemma lor_bound (x y n : Z) :
  0 < n -> 0 <= x < 2 ^ n -> 0 <= y < 2 ^ n -> 0 <= Z.lor x y < 2 ^ n.
Proof.
  intros Hn Hx Hy.
  assert (H0 : 0 <= Z.lor x y) by (apply Z.lor_nonneg; lia).
  split; [exact H0|].
  destruct (Z.eq_dec (Z.lor x y) 0) as [->|Hne]; [apply Z.pow_pos_nonneg; lia|].
  apply Z.log2_lt_pow2; [lia|].
  rewrite Z.log2_lor by lia.
  pose proof (lt_pow2_log2 x n Hn Hx). pose proof (lt_pow2_log2 y n Hn Hy). lia.
Qed.

(** The six-bit values that [EncodeToString] looks up. *)
Lemma sextets (a b : Z) :
  is_byte a -> is_byte b ->
  0 <= Z.shiftr a 2 < 64
  /\ 0 <= Z.shiftl (Z.land a 3) 4 < 64
  /\ 0 <= Z.lor (Z.shiftl (Z.land a 3) 4) (Z.shiftr b 4) < 64
  /\ 0 <= Z.shiftl (Z.land b 15) 2 < 64
  /\ 0 <= Z.lor (Z.shiftl (Z.land a 15) 2) (Z.shiftr b 6) < 64
  /\ 0 <= Z.land b 63 < 64.
Proof.
  unfold is_byte. intros Ha Hb.
  change 3 with (Z.ones 2). change 15 with (Z.ones 4). change 63 with (Z.ones 6).
  rewrite !Z.land_ones, !Z.shiftr_div_pow2, !Z.shiftl_mul_pow2 by lia.
  change (2 ^ 2) with 4. change (2 ^ 4) with 16. change (2 ^ 6) with 64.
  pose proof (Z.mod_pos_bound a 4). pose proof (Z.mod_pos_bound a 16).
  pose proof (Z.mod_pos_bound b 16). pose proof (Z.mod_pos_bound b 64).
  assert (0 <= a / 4 < 64) by (split; [apply Z.div_pos | apply Z.div_lt_upper_bound]; lia).
  assert (0 <= b / 16 < 16) by (split; [apply Z.div_pos | apply Z.div_lt_upper_bound]; lia).
  assert (0 <= b / 64 < 4) by (split; [apply Z.div_pos | apply Z.div_lt_upper_bound]; lia).
  repeat split; try lia; try (apply (lor_bound _ _ 6); lia).
Qed.

(** The URL-safe form of a base64 character is one token character. *)
Lemma enc_url_safe (v : Z) :
  0 <= v < 64 ->
  exists c, TokenSpec.url_safe_char (Base64.enc v) = String c "" /\ token_char c = true.
Proof.
  intros Hv. rewrite <- (Z2Nat.id v) by lia.
  assert (Hn : (Z.to_nat v < 64)%nat) by lia. revert Hn.
  generalize (Z.to_nat v) as n. intros n Hn.
  do 64 (destruct n as [|n]; [vm_compute; eauto|]). lia.
Qed.

Lemma hexdigit_char (v : Z) : 0 <= v < 16 -> hex_char (Base64.hexdigit v) = true.
Proof.
  intros Hv. rewrite <- (Z2Nat.id v) by lia.
  assert (Hn : (Z.to_nat v < 16)%nat) by lia. revert Hn.
  generalize (Z.to_nat v) as n. intros n Hn.
  do 16 (destruct n as [|n]; [vm_compute; eauto|]). lia.
Qed.

(** The URL-safe form of the base64 text of [n] bytes has [(4n + 2) / 3]
    token characters: the padding is gone. *)
Lemma url_safe_base64_shape (n : nat) (src : list Z) :
  (length src <= n)%nat -> Forall is_byte src ->
  let t := TokenSpec.url_safe (Base64.EncodeToString src) in
  String.length t = ((4 * length src + 2) / 3)%nat /\ all_bytes token_char t = true.
Proof.
  revert src. induction n as [|n IH]; intros src Hlen Hb.
  - destruct src; [now cbn | cbn in Hlen; lia].
  - destruct src as [|a [|b [|c r]]]; [now cbn| | |].
    + apply Forall_cons_1 in Hb as [Ha _].
      destruct (sextets a a Ha Ha) as (H1 & H2 & _).
      destruct (enc_url_safe _ H1) as (c1 & E1 & T1).
      destruct (enc_url_safe _ H2) as (c2 & E2 & T2).
      cbn [Base64.EncodeToString TokenSpec.url_safe]. rewrite E1, E2.
      rewrite !app_cons_s, !app_nil_l_s.
      cbn [String.length all_bytes length]. now rewrite T1, T2.
    + apply Forall_cons_1 in Hb as [Ha Hb]. apply Forall_cons_1 in Hb as [Hb _].
      destruct (sextets a b Ha Hb) as (H1 & _ & H2 & _).
      destruct (sextets b b Hb Hb) as (_ & _ & _ & H3 & _).
      destruct (enc_url_safe _ H1) as (c1 & E1 & T1).
      destruct (enc_url_safe _ H2) as (c2 & E2 & T2).
      destruct (enc_url_safe _ H3) as (c3 & E3 & T3).
      cbn [Base64.EncodeToString TokenSpec.url_safe]. rewrite E1, E2, E3.
      rewrite !app_cons_s, !app_nil_l_s.
      cbn [String.length all_bytes length]. now rewrite T1, T2, T3.
    + apply Forall_cons_1 in Hb as [Ha Hb]. apply Forall_cons_1 in Hb as [Hb Hc].
      apply Forall_cons_1 in Hc as [Hc Hr].
      destruct (sextets a b Ha Hb) as (H1 & _ & H2 & _).
      destruct (sextets b c Hb Hc) as (_ & _ & _ & _ & H3 & H4).
      destruct (enc_url_safe _ H1) as (c1 & E1 & T1).
      destruct (enc_url_safe _ H2) as (c2 & E2 & T2).
      destruct (enc_url_safe _ H3) as (c3 & E3 & T3).
      destruct (enc_url_safe _ H4) as (c4 & E4 & T4).
      destruct (IH r) as [IHl IHc]; [cbn in Hlen; lia | assumption |].
      cbn [Base64.EncodeToString TokenSpec.url_safe]. rewrite E1, E2, E3, E4.
      rewrite !app_cons_s, !app_nil_l_s.
      cbn [String.length all_bytes]. rewrite T1, T2, T3, T4, IHc.
      split; [|reflexivity]. cbn zeta in IHl. rewrite IHl. cbn [length].
      replace (4 * S (S (S (length r))) + 2)%nat with ((4 * length r + 2) + 4 * 3)%nat by lia.
      rewrite Nat.div_add by lia. lia.
Qed.

Lemma hex_shape (src : list Z) :
  Forall is_byte src ->
  String.length (Base64.HexEncodeToString src) = (2 * length src)%nat
  /\ all_bytes hex_char (Base64.HexEncodeToString src) = true.
Proof.
  induction 1 as [|a r Ha Hr [IHl IHc]]; [now cbn|].
  unfold is_byte in Ha.
  assert (H1 : 0 <= Z.shiftr a 4 < 16).
  { rewrite Z.shiftr_div_pow2 by lia. change (2 ^ 4) with 16.
    split; [apply Z.div_pos | apply Z.div_lt_upper_bound]; lia. }
  assert (H2 : 0 <= Z.land a 15 < 16).
  { change 15 with (Z.ones 4). rewrite Z.land_ones by lia. apply Z.mod_pos_bound. lia. }
  cbn [Base64.HexEncodeToString String.length all_bytes length].
  rewrite (hexdigit_char _ H1), (hexdigit_char _ H2), IHc, IHl. split; [lia | reflexivity].
Qed.

(** X: the token of [signCDNToken] has 43 characters, all of them letters,
    digits, ['-'] or ['_']. *)
Theorem signCDNToken_shape (key path : string) (expiry : Z)
    (opts : Signed.SignedURLOptions) :
  snd (Signed.signCDNToken key path expiry opts) = None
  /\ String.length (fst (Signed.signCDNToken key path expiry opts)) = 43%nat
  /\ all_bytes token_char (fst (Signed.signCDNToken key path expiry opts)) = true.
Proof.
  unfold Signed.signCDNToken. cbv zeta. cbn [fst snd].
  rewrite replacements_url_safe.
  split; [reflexivity|].
  match goal with |- context [Sha256.Sum256 ?m] => destruct (Sum256_shape m) as [Hl Hb] end.
  match goal with |- context [Base64.EncodeToString ?d] =>
    destruct (url_safe_base64_shape 32 d) as [Hlen Hc]; [lia | assumption |] end.
  rewrite Hlen, Hc, Hl. now split.
Qed.

End TokenShape.

(** ** Signed URLs: what the tokens depend on, and what the URLs hold *)

Section SignedUrls.

Import Url QuerySpec Upload.

(** The token depends on the key, the path and the expiry only through their
    concatenation: the hashed text has no separators. *)
Theorem signCDNToken_concatenation (key1 path1 key2 path2 : string)
    (expiry1 expiry2 : Z) (opts : Signed.SignedURLOptions) :
  key1 +:+ path1 +:+ FormatInt expiry1 = key2 +:+ path2 +:+ FormatInt expiry2 ->
  Signed.signCDNToken key1 path1 expiry1 opts
  = Signed.signCDNToken key2 path2 expiry2 opts.
Proof.
  intros H. unfold Signed.signCDNToken. cbv zeta. now rewrite H.
Qed.

(** A path that ends in a digit and an expiry without it, or the path without
    the digit and the expiry with it in front. *)
Lemma signCDNToken_concatenation_witness :
  Signed.signCDNToken "cdn-secret" "/video-abc/1" 700000000 (Signed.apply_options [])
  = Signed.signCDNToken "cdn-secret" "/video-abc/" 1700000000 (Signed.apply_options []).
Proof.
  apply (signCDNToken_concatenation "cdn-secret" "/video-abc/1" "cdn-secret"
           "/video-abc/" 700000000 1700000000).
  vm_compute. reflexivity.
Defined.

(** [QueryEscape] leaves a text of unreserved characters as it is. *)
Lemma QueryEscape_plain (s : string) :
  all_bytes plain_char s = true -> QueryEscape s = s.
Proof.
  induction s as [|c s IH]; [reflexivity|].
  cbn [all_bytes QueryEscape]. unfold plain_char at 1.
  intros H. apply andb_true_iff in H as [Hc Hs].
  destruct (shouldEscape c); [discriminate|]. now rewrite IH.
Qed.

Lemma all_bytes_weaken (p q : ascii -> bool) (s : string) :
  (forall c, p c = true -> q c = true) ->
  all_bytes p s = true -> all_bytes q s = true.
Proof.
  intros Hpq. induction s as [|c s IH]; [reflexivity|].
  cbn [all_bytes]. rewrite !andb_true_iff. intros [Hc Hs]. auto.
Qed.

Lemma all_bytes_app (p : ascii -> bool) (s t : string) :
  all_bytes p (s +:+ t) = all_bytes p s && all_bytes p t.
Proof.
  induction s as [|c s IH]; [reflexivity|].
  rewrite app_cons_s. cbn [all_bytes]. now rewrite IH, andb_assoc.
Qed.

(** The decimal text of an integer: digits, after a minus sign or not. *)
Lemma FormatInt_plain (n : Z) : all_bytes plain_char (FormatInt n) = true.
Proof.
  unfold FormatInt.
  assert (Hu : forall d, all_bytes plain_char (NilEmpty.string_of_uint d) = true).
  { induction d; cbn [NilEmpty.string_of_uint all_bytes]; try rewrite IHd; reflexivity. }
  assert (Hz : forall d, all_bytes plain_char (NilZero.string_of_uint d) = true).
  { intros d. destruct d; try apply Hu. reflexivity. }
  destruct (Z.to_int n); cbn [NilZero.string_of_int all_bytes]; rewrite ?Hz; reflexivity.
Qed.

Lemma hex_plain (c : ascii) : hex_char c = true -> plain_char c = true.
Proof. every_byte c; vm_compute; intros H; try discriminate H; reflexivity. Qed.

Lemma token_plain (c : ascii) : token_char c = true -> plain_char c = true.
Proof. every_byte c; vm_compute; intros H; try discriminate H; reflexivity. Qed.

(** A query of two pairs, as a URL parser reads it. *)
Lemma ParseQuery_two (k1 v1 k2 v2 : string) :
  k1 <> k2 ->
  let m := ParseQuery (QueryEscape k1 +:+ "=" +:+ QueryEscape v1 +:+ "&"
                         +:+ QueryEscape k2 +:+ "=" +:+ QueryEscape v2) in
  m !! k1 = Some [v1] /\ m !! k2 = Some [v2]
  /\ forall k, k <> k1 -> k <> k2 -> m !! k = None.
Proof.
  intros Hne m. subst m. rewrite ParseQuery_pieces.
  rewrite <- (app_assoc_s (QueryEscape k1) "=" (QueryEscape v1 +:+ _)).
  rewrite <- (app_assoc_s (QueryEscape k1 +:+ "=") (QueryEscape v1)).
  rewrite pieces_app, pieces_single;
    rewrite ?contains_byte_app, ?QueryEscape_no_separator by auto; try reflexivity.
  cbn [fold_left]. rewrite app_assoc_s, !parsePiece_pair.
  unfold add_value. rewrite lookup_empty. cbn [default app].
  rewrite (lookup_insert_ne _ k1 k2) by assumption. rewrite lookup_empty. cbn [default app].
  repeat split.
  - rewrite lookup_insert_ne by congruence. apply lookup_insert_eq.
  - apply lookup_insert_eq.
  - intros k H1 H2. rewrite !lookup_insert_ne by congruence. apply lookup_empty.
Qed.

(** The signed embed URL is the embed URL, followed by a query with a token
    of 64 lower-case hexadecimal digits and the expiry; a URL parser reads
    the two back from the query and nothing else. *)
Theorem SignedEmbedURL_shape (c : Core.Client) (now : Z) (videoID : string) (ttl : Z) :
  TrimSpace videoID <> "" ->
  Cfg.EmbedTokenKey (Core.config c) <> "" ->
  exists token query,
    SignedMore.SignedEmbedURL c now videoID ttl
    = (fst (Playback.EmbedURL c videoID) +:+ "?" +:+ query, None)
    /\ snd (Playback.EmbedURL c videoID) = None
    /\ String.length token = 64%nat /\ all_bytes hex_char token = true
    /\ ParseQuery query !! "token" = Some [token]
    /\ ParseQuery query !! "expires" = Some [FormatInt (Signed.expiry_at now ttl)]
    /\ (forall k, k <> "token" -> k <> "expires" -> ParseQuery query !! k = None).
Proof.
  intros Hv Hk.
  set (expiry := Signed.expiry_at now ttl).
  set (token := Base64.HexEncodeToString
                  (Sha256.Sum256 (Sha256.bytes_of_string
                     (Cfg.EmbedTokenKey (Core.config c) +:+ videoID +:+ FormatInt expiry)))).
  exists token, ("token=" +:+ token +:+ "&expires=" +:+ FormatInt expiry).
  destruct (Sum256_shape (Sha256.bytes_of_string
              (Cfg.EmbedTokenKey (Core.config c) +:+ videoID +:+ FormatInt expiry)))
    as [Hl Hb].
  destruct (hex_shape _ Hb) as [Hlen Hhex]. fold token in Hlen, Hhex.
  unfold SignedMore.SignedEmbedURL, Playback.EmbedURL.
  destruct (String.eqb_spec (TrimSpace videoID) ""); [contradiction|].
  destruct (String.eqb_spec (Cfg.EmbedTokenKey (Core.config c)) ""); [contradiction|].
  cbn [fst snd]. fold expiry. fold token.
  split; [now rewrite !app_assoc_s|]. split; [reflexivity|].
  split; [rewrite Hlen, Hl; reflexivity|]. split; [exact Hhex|].
  assert (Ht : QueryEscape token = token).
  { apply QueryEscape_plain. revert Hhex. apply all_bytes_weaken, hex_plain. }
  assert (He : QueryEscape (FormatInt expiry) = FormatInt expiry)
    by apply QueryEscape_plain, FormatInt_plain.
  pose proof (ParseQuery_two "token" token "expires" (FormatInt expiry)) as H.
  cbv zeta in H. rewrite Ht, He in H.
  change (QueryEscape "token") with "token" in H.
  change (QueryEscape "expires") with "expires" in H.
  replace ("token=" +:+ token +:+ "&expires=" +:+ FormatInt expiry)
    with ("token" +:+ "=" +:+ token +:+ "&" +:+ "expires" +:+ "=" +:+ FormatInt expiry)
    by reflexivity.
  apply H. discriminate.
Qed.


(** The signed embed URL of ["video-abc"]. *)
Lemma SignedEmbedURL_shape_witness :
  exists token query,
    SignedMore.SignedEmbedURL sample_client 1700000000123456789 "video-abc" 3600000000000
    = (fst (Playback.EmbedURL sample_client "video-abc") +:+ "?" +:+ query, None)
    /\ snd (Playback.EmbedURL sample_client "video-abc") = None
    /\ String.length token = 64%nat /\ all_bytes hex_char token = true
    /\ ParseQuery query !! "token" = Some [token]
    /\ ParseQuery query !! "expires"
       = Some [FormatInt (Signed.expiry_at 1700000000123456789 3600000000000)]
    /\ (forall k, k <> "token" -> k <> "expires" -> ParseQuery query !! k = None).
Proof.
  apply (SignedEmbedURL_shape sample_client 1700000000123456789 "video-abc" 3600000000000).
  - now vm_compute.
  - now vm_compute.
Defined.

(** The lookups in the parameters of [SignedMP4URL]. *)
Ltac lookup_params :=
  unfold Url.Set_;
  repeat (rewrite lookup_insert_eq
          || (rewrite lookup_insert_ne by (try discriminate; congruence))
          || rewrite lookup_empty);
  try reflexivity.

(** The signed MP4 URL is the MP4 URL, followed by a query.  A URL parser
    reads back from the query the token of the file path, the expiry, and the
    allowed and the blocked countries when they are set, and nothing else:
    the user IP is signed and not sent. *)
Theorem SignedMP4URL_shape (c : Core.Client) (now : Z) (videoID r : string) (ttl : Z)
    (opts : list Signed.SignedURLOption) :
  TrimSpace videoID <> "" -> r <> "" ->
  Cfg.CDNHostname (Core.config c) <> "" ->
  Cfg.CDNTokenKey (Core.config c) <> "" ->
  let options := Signed.apply_options opts in
  let expiry := Signed.expiry_at now ttl in
  let token :=
    fst (Signed.signCDNToken (Cfg.CDNTokenKey (Core.config c))
           ("/" +:+ videoID +:+ "/play_" +:+ r +:+ ".mp4") expiry options) in
  exists query,
    SignedMore.SignedMP4URL c now videoID r ttl opts
    = (fst (Playback.MP4URL c videoID r) +:+ "?" +:+ query, None)
    /\ snd (Playback.MP4URL c videoID r) = None
    /\ ParseQuery query !! "token" = Some [token]
    /\ ParseQuery query !! "expires" = Some [FormatInt expiry]
    /\ ParseQuery query !! "token_countries"
       = (if String.eqb (Signed.CountriesAllowed options) "" then None
          else Some [Signed.CountriesAllowed options])
    /\ ParseQuery query !! "token_countries_blocked"
       = (if String.eqb (Signed.CountriesBlocked options) "" then None
          else Some [Signed.CountriesBlocked options])
    /\ (forall k, k <> "token" -> k <> "expires" -> k <> "token_countries" ->
                  k <> "token_countries_blocked" -> ParseQuery query !! k = None).
Proof.
  intros Hv Hr Hh Hk options expiry token.
  unfold SignedMore.SignedMP4URL, Playback.MP4URL, GetUrl.cdnBase.
  destruct (String.eqb_spec (TrimSpace videoID) ""); [contradiction|].
  destruct (String.eqb_spec r ""); [contradiction|].
  destruct (String.eqb_spec (Cfg.CDNHostname (Core.config c)) ""); [contradiction|].
  destruct (String.eqb_spec (Cfg.CDNTokenKey (Core.config c)) ""); [contradiction|].
  cbv zeta. fold options. fold expiry.
  assert (Hsign : Signed.signCDNToken (Cfg.CDNTokenKey (Core.config c))
                    ("/" +:+ videoID +:+ "/play_" +:+ r +:+ ".mp4") expiry options
                  = (token, None)) by reflexivity.
  rewrite Hsign. clearbody token. cbn [fst snd].
  eexists. split; [rewrite !app_assoc_s; reflexivity|]. split; [reflexivity|].
  rewrite !ParseQuery_Encode.
  destruct (String.eqb (Signed.CountriesAllowed options) ""),
    (String.eqb (Signed.CountriesBlocked options) ""); cbn [negb];
    repeat split; try (intros k H1 H2 H3 H4);
    rewrite ?ParseQuery_Encode; lookup_params.
Qed.

(** The signed MP4 URL of ["video-abc"] at 720p for the allowed countries US
    and GB and a user IP. *)
Lemma SignedMP4URL_shape_witness :
  exists query,
    SignedMore.SignedMP4URL sample_client 1700000000123456789 "video-abc" "720p"
      3600000000000 [Signed.WithCountriesAllowed "US,GB"; Signed.WithUserIP "1.2.3.4"]
    = ("https://vz-abc123.b-cdn.net/video-abc/play_720p.mp4" +:+ "?" +:+ query, None)
    /\ ParseQuery query !! "token"
       = Some [fst (Signed.signCDNToken "cdn-secret" "/video-abc/play_720p.mp4" 1700003600
                      (Signed.mkOptions "1.2.3.4" "US,GB" ""))]
    /\ ParseQuery query !! "expires" = Some ["1700003600"]
    /\ ParseQuery query !! "token_countries" = Some ["US,GB"]
    /\ ParseQuery query !! "token_countries_blocked" = None.
Proof.
  assert (H1 : TrimSpace "video-abc" <> "") by (now vm_compute).
  assert (H2 : "720p" <> "") by discriminate.
  assert (H3 : Cfg.CDNHostname (Core.config sample_client) <> "") by (now vm_compute).
  assert (H4 : Cfg.CDNTokenKey (Core.config sample_client) <> "") by (now vm_compute).
  destruct (SignedMP4URL_shape sample_client 1700000000123456789 "video-abc" "720p"
              3600000000000 [Signed.WithCountriesAllowed "US,GB"; Signed.WithUserIP "1.2.3.4"]
              H1 H2 H3 H4) as (query & E & _ & Ht & He & Ha & Hb & _).
  exists query. repeat split; assumption.
Defined.

End SignedUrls.

(** ** The URL functions together *)

Section UrlFunctions.

Import Playback SignedMore.

Lemma TrimRight_app_slash (s : string) : TrimRight (s +:+ "/") "/" = TrimRight s "/".
Proof.
  induction s as [|c s IH]; [reflexivity|].
  rewrite app_cons_s. cbn [TrimRight]. now rewrite IH.
Qed.

(** One more slash at the end of the CDN hostname changes no URL: the CDN
    base, the four CDN URLs and the two signed CDN URLs are the same. *)
Theorem trailing_slash_ignored (c : Core.Client) (host videoID : string) :
  host <> "" ->
  let c1 := with_host c host in
  let c2 := with_host c (host +:+ "/") in
  GetUrl.cdnBase c2 videoID = GetUrl.cdnBase c1 videoID
  /\ GetUrl.HLSPlaylistURL c2 videoID = GetUrl.HLSPlaylistURL c1 videoID
  /\ ThumbnailURL c2 videoID = ThumbnailURL c1 videoID
  /\ PreviewAnimationURL c2 videoID = PreviewAnimationURL c1 videoID
  /\ (forall r, MP4URL c2 videoID r = MP4URL c1 videoID r)
  /\ (forall now ttl opts,
        Signed.SignedHLSURL c2 now videoID ttl opts
        = Signed.SignedHLSURL c1 now videoID ttl opts)
  /\ (forall now r ttl opts,
        SignedMP4URL c2 now videoID r ttl opts = SignedMP4URL c1 now videoID r ttl opts).
Proof.
  intros Hh c1 c2.
  assert (Hne : host +:+ "/" <> "") by (destruct host; [congruence | discriminate]).
  assert (Hbase : GetUrl.cdnBase c2 videoID = GetUrl.cdnBase c1 videoID).
  { unfold GetUrl.cdnBase, c1, c2; cbn [with_host Core.config Cfg.CDNHostname].
    destruct (String.eqb_spec (host +:+ "/") ""); [contradiction|].
    destruct (String.eqb_spec host ""); [contradiction|].
    now rewrite TrimRight_app_slash. }
  split; [exact Hbase|].
  unfold GetUrl.HLSPlaylistURL, ThumbnailURL, PreviewAnimationURL, MP4URL.
  rewrite Hbase. repeat split; try reflexivity.
  - intros now ttl opts. unfold Signed.SignedHLSURL, c1, c2.
    cbn [with_host Core.config Cfg.CDNHostname Cfg.CDNTokenKey].
    destruct (String.eqb_spec (host +:+ "/") ""); [contradiction|].
    destruct (String.eqb_spec host ""); [contradiction|].
    now rewrite TrimRight_app_slash.
  - intros now r ttl opts. unfold SignedMP4URL, c1, c2.
    cbn [with_host Core.config Cfg.CDNHostname Cfg.CDNTokenKey].
    destruct (String.eqb_spec (host +:+ "/") ""); [contradiction|].
    destruct (String.eqb_spec host ""); [contradiction|].
    now rewrite TrimRight_app_slash.
Qed.

(** The thumbnail of a video with and without a slash after the hostname. *)
Lemma trailing_slash_ignored_witness :
  ThumbnailURL (with_host sample_client ("vz-abc123.b-cdn.net" +:+ "/")) "video-abc"
  = ThumbnailURL (with_host sample_client "vz-abc123.b-cdn.net") "video-abc".
Proof.
  apply (trailing_slash_ignored sample_client "vz-abc123.b-cdn.net" "video-abc").
  discriminate.
Defined.

(** A blank video id is refused by every URL function and by the upload
    before anything else: whatever the client holds and whatever the other
    arguments are, the result is [ErrVideoIDRequired] with an empty string,
    or with no response and without a request being made. *)
Theorem blank_video_id_refused (c : Core.Client) (videoID : string) :
  TrimSpace videoID = "" ->
  EmbedURL c videoID = ("", Some ErrVideoIDRequired)
  /\ DirectPlayURL c videoID = ("", Some ErrVideoIDRequired)
  /\ GetUrl.HLSPlaylistURL c videoID = ("", Some ErrVideoIDRequired)
  /\ ThumbnailURL c videoID = ("", Some ErrVideoIDRequired)
  /\ PreviewAnimationURL c videoID = ("", Some ErrVideoIDRequired)
  /\ (forall r, MP4URL c videoID r = ("", Some ErrVideoIDRequired))
  /\ (forall now ttl, SignedEmbedURL c now videoID ttl = ("", Some ErrVideoIDRequired))
  /\ (forall now ttl opts,
        Signed.SignedHLSURL c now videoID ttl opts = ("", Some ErrVideoIDRequired))
  /\ (forall now r ttl opts,
        SignedMP4URL c now videoID r ttl opts = ("", Some ErrVideoIDRequired))
  /\ (forall newRequest videoFile opts,
        Upload.UploadVideo newRequest c videoID videoFile opts
        = Core.Return (None, Some ErrVideoIDRequired)).
Proof.
  intros H.
  unfold EmbedURL, DirectPlayURL, GetUrl.HLSPlaylistURL, ThumbnailURL,
    PreviewAnimationURL, MP4URL, SignedEmbedURL, Signed.SignedHLSURL, SignedMP4URL,
    Upload.UploadVideo.
  rewrite H. now repeat split.
Qed.

(** A video id of white space only, on a client without any key. *)
Lemma blank_video_id_refused_witness :
  EmbedURL (new_client minimal_config) "   " = ("", Some ErrVideoIDRequired)
  /\ SignedMP4URL (new_client minimal_config) 0 "   " "" 0 []
     = ("", Some ErrVideoIDRequired).
Proof.
  assert (H : TrimSpace "   " = "") by (now vm_compute).
  destruct (blank_video_id_refused (new_client minimal_config) "   " H)
    as (E & _ & _ & _ & _ & _ & _ & _ & M & _).
  split; [exact E | apply M].
Defined.

(** Without a CDN hostname, the six CDN functions fail with
    [ErrCDNHostnameRequired] for a video id that is not blank and a
    resolution that is not empty, whether the token key is set or not; an
    empty resolution is reported before the missing hostname. *)
Theorem cdn_hostname_required (c : Core.Client) (videoID : string) :
  TrimSpace videoID <> "" ->
  Cfg.CDNHostname (Core.config c) = "" ->
  GetUrl.HLSPlaylistURL c videoID = ("", Some ErrCDNHostnameRequired)
  /\ ThumbnailURL c videoID = ("", Some ErrCDNHostnameRequired)
  /\ PreviewAnimationURL c videoID = ("", Some ErrCDNHostnameRequired)
  /\ (forall now ttl opts,
        Signed.SignedHLSURL c now videoID ttl opts = ("", Some ErrCDNHostnameRequired))
  /\ (forall r, MP4URL c videoID r
                = ("", Some (if String.eqb r "" then ErrResolutionRequired
                             else ErrCDNHostnameRequired)))
  /\ (forall now r ttl opts,
        SignedMP4URL c now videoID r ttl opts
        = ("", Some (if String.eqb r "" then ErrResolutionRequired
                     else ErrCDNHostnameRequired))).
Proof.
  intros Hv Hh.
  unfold GetUrl.HLSPlaylistURL, ThumbnailURL, PreviewAnimationURL, MP4URL,
    GetUrl.cdnBase, Signed.SignedHLSURL, SignedMP4URL.
  destruct (String.eqb_spec (TrimSpace videoID) ""); [contradiction|].
  rewrite Hh. cbn [String.eqb].
  repeat split; intros; try reflexivity; now destruct (String.eqb r "").
Qed.

(** The client of the minimal configuration has no CDN hostname. *)
Lemma cdn_hostname_required_witness :
  GetUrl.HLSPlaylistURL (new_client minimal_config) "video-abc"
  = ("", Some ErrCDNHostnameRequired)
  /\ MP4URL (new_client minimal_config) "video-abc" ""
     = ("", Some ErrResolutionRequired)
  /\ SignedMP4URL (new_client minimal_config) 0 "video-abc" "720p" 0 []
     = ("", Some ErrCDNHostnameRequired).
Proof.
  assert (H1 : TrimSpace "video-abc" <> "") by (now vm_compute).
  assert (H2 : Cfg.CDNHostname (Core.config (new_client minimal_config)) = "")
    by reflexivity.
  destruct (cdn_hostname_required (new_client minimal_config) "video-abc" H1 H2)
    as (E & _ & _ & _ & M & S).
  split; [exact E|]. split; [apply (M "") | apply (S 0 "720p" 0 [])].
Defined.

End UrlFunctions.

(** ** The client: what [NewClient] refuses, what [init] keeps, and what
    [doRequest] answers *)

Section ClientFacts.

Import ErrIs.

Lemma Is_refl (e : error) : Is e e = true.
Proof.
  destruct e; cbn [Is]; destruct (error_eq_dec _ _); try reflexivity; contradiction.
Qed.

Lemma Is_Wrap (context : string) (e target : error) :
  Is e target = true -> Is (Wrap context e) target = true.
Proof. intros H. cbn [Is]. rewrite H. apply orb_true_r. Qed.

(** The status codes without an error are the four success codes. *)
Lemma checkResponseError_None (statusCode : Z) (body : string) :
  Core.checkResponseError statusCode body = None -> statusCode ∈ success_codes.
Proof.
  unfold Core.checkResponseError, success_codes, Http.StatusOK, Http.StatusCreated,
    Http.StatusAccepted, Http.StatusNoContent.
  destruct (Z.eqb_spec statusCode 200) as [->|]; [intros _; set_solver|].
  destruct (Z.eqb_spec statusCode 201) as [->|]; [intros _; set_solver|].
  destruct (Z.eqb_spec statusCode 202) as [->|]; [intros _; set_solver|].
  destruct (Z.eqb_spec statusCode 204) as [->|]; [intros _; set_solver|].
  cbn [orb]. repeat (destruct (_ =? _); [discriminate|]). discriminate.
Qed.

(** [NewClient] answers a client or an error, never both and never neither.
    The error is found as [ErrInvalidConfig] by [errors.Is] in every case;
    a missing API key is reported before a missing library id, and nothing
    else is checked: a configuration with both is accepted, and the client
    has its two values, a base URL and an HTTP client. *)
Theorem NewClient_outcome (transport : Http.Request -> Http.DoResult)
    (cfg : option Cfg.Config) :
  match Core.NewClient transport cfg with
  | (Some c, None) =>
      exists cfg0, cfg = Some cfg0
        /\ Cfg.APIKey cfg0 <> "" /\ Cfg.LibraryID cfg0 <> ""
        /\ Core.apiKey c = Cfg.APIKey cfg0
        /\ Core.libraryID c = Cfg.LibraryID cfg0
        /\ Core.baseURL c <> ""
        /\ Core.baseURL c = Cfg.BaseURL (Core.config c)
        /\ Core.httpClient c <> None
  | (None, Some err) =>
      Is err ErrInvalidConfig = true
      /\ match cfg with
         | None => err = ErrInvalidConfig
         | Some cfg0 =>
             if String.eqb (Cfg.APIKey cfg0) ""
             then Is err ErrAPIKeyRequired = true
                  /\ Is err ErrLibraryIDRequired = false
             else Cfg.LibraryID cfg0 = ""
                  /\ Is err ErrLibraryIDRequired = true
                  /\ Is err ErrAPIKeyRequired = false
         end
  | _ => False
  end.
Proof.
  destruct cfg as [cfg0|]; [|now split].
  unfold Core.NewClient, Cfg.validate.
  destruct (String.eqb_spec (Cfg.APIKey cfg0) "") as [|Hk]; [now repeat split|].
  destruct (String.eqb_spec (Cfg.LibraryID cfg0) "") as [|Hl]; [now repeat split|].
  exists cfg0. cbn. repeat split; try assumption.
  - destruct (String.eqb_spec (Cfg.BaseURL cfg0) ""); [discriminate | assumption].
  - destruct (Cfg.HTTPClient cfg0); discriminate.
Qed.

(** [init] changes no field that is set: a user agent and a base URL that
    are not empty, a number of retries and a time limit of at least one are
    kept, and so is an HTTP client, with its own time limit whatever the one
    of the configuration is.  A client that [init] makes has the time limit
    of the configuration after the defaults.  The other fields get their
    default values, and a second [init] changes nothing. *)
Theorem init_keeps_settings (transport : Http.Request -> Http.DoResult) (c : Cfg.Config) :
  let c' := Cfg.init transport c in
  Cfg.UserAgent c' = (if decide (Cfg.UserAgent c = "") then Cfg.DefaultUserAgent
                      else Cfg.UserAgent c)
  /\ Cfg.BaseURL c' = (if decide (Cfg.BaseURL c = "") then Cfg.DefaultBaseURL
                       else Cfg.BaseURL c)
  /\ Cfg.MaxRetries c' = (if decide (1 <= Cfg.MaxRetries c) then Cfg.MaxRetries c
                          else Cfg.DefaultMaxRetries)
  /\ Cfg.Timeout c' = (if decide (1 <= Cfg.Timeout c) then Cfg.Timeout c
                       else Cfg.DefaultTimeout)
  /\ Cfg.HTTPClient c'
     = Some (match Cfg.HTTPClient c with
             | Some cl => cl
             | None => {| Http.Timeout := Cfg.Timeout c'; Http.Do := transport |}
             end)
  /\ Cfg.APIKey c' = Cfg.APIKey c
  /\ Cfg.LibraryID c' = Cfg.LibraryID c
  /\ Cfg.init transport c' = c'.
Proof.
  destruct c as [lg key lib host ek ck ua base cl mr tm].
  unfold Cfg.init; cbn.
  repeat split.
  - destruct (String.eqb_spec ua ""), (decide (ua = "")); congruence.
  - destruct (String.eqb_spec base ""), (decide (base = "")); congruence.
  - destruct (Z.ltb_spec mr 1), (decide (1 <= mr)); lia.
  - destruct (Z.ltb_spec tm 1), (decide (1 <= tm)); lia.
  - now destruct cl.
  - assert (Hua : (if String.eqb (if String.eqb ua "" then Cfg.DefaultUserAgent else ua) ""
                   then Cfg.DefaultUserAgent
                   else if String.eqb ua "" then Cfg.DefaultUserAgent else ua)
                  = if String.eqb ua "" then Cfg.DefaultUserAgent else ua).
    { destruct (String.eqb_spec ua "") as [|H]; [reflexivity|].
      now destruct (String.eqb_spec ua ""). }
    assert (Hbase : (if String.eqb (if String.eqb base "" then Cfg.DefaultBaseURL else base) ""
                     then Cfg.DefaultBaseURL
                     else if String.eqb base "" then Cfg.DefaultBaseURL else base)
                    = if String.eqb base "" then Cfg.DefaultBaseURL else base).
    { destruct (String.eqb_spec base "") as [|H]; [reflexivity|].
      now destruct (String.eqb_spec base ""). }
    assert (Hmr : (if (if mr <? 1 then Cfg.DefaultMaxRetries else mr) <? 1
                   then Cfg.DefaultMaxRetries
                   else if mr <? 1 then Cfg.DefaultMaxRetries else mr)
                  = if mr <? 1 then Cfg.DefaultMaxRetries else mr).
    { destruct (Z.ltb_spec mr 1); [reflexivity|].
      destruct (Z.ltb_spec mr 1); [lia | reflexivity]. }
    assert (Htm : (if (if tm <? 1 then Cfg.DefaultTimeout else tm) <? 1
                   then Cfg.DefaultTimeout
                   else if tm <? 1 then Cfg.DefaultTimeout else tm)
                  = if tm <? 1 then Cfg.DefaultTimeout else tm).
    { destruct (Z.ltb_spec tm 1); [reflexivity|].
      destruct (Z.ltb_spec tm 1); [lia | reflexivity]. }
    rewrite Hua, Hbase, Hmr, Htm. now destruct cl.
Qed.

(** A client that [NewClient] has made never panics in [doRequest]: the call
    returns.  Without an error there is a response, and its status is one of
    the four success codes; without a response the error is one that the
    transport or the reading of the body has caused, and [errors.Is] finds
    the cause; with both, the error is the one of the status. *)
Theorem doRequest_after_NewClient (transport : Http.Request -> Http.DoResult)
    (cfg : Cfg.Config) (c : Core.Client) (req : Http.Request) :
  Core.NewClient transport (Some cfg) = (Some c, None) ->
  exists resp err,
    Core.doRequest c req = Core.Return (resp, err)
    /\ match resp, err with
       | Some r, None => Resp.StatusCode r ∈ success_codes
       | Some r, Some e =>
           Core.checkResponseError (Resp.StatusCode r) (Resp.Body r) = Some e
       | None, Some e =>
           exists context cause,
             e = Wrap context cause /\ Is e cause = true
             /\ (context = "failed to perform request"
                 \/ context = "failed to read response body")
       | None, None => False
       end.
Proof.
  intros H. apply NewClient_config in H as (_ & _ & Hcl).
  destruct (Core.httpClient c) as [cl|] eqn:E; [clear Hcl | contradiction].
  unfold Core.doRequest. rewrite E.
  destruct (Http.Do cl req) as [r e|r].
  - exists None, (Some (Wrap "failed to perform request" e)). split; [reflexivity|].
    exists "failed to perform request", e.
    repeat split; [apply Is_Wrap, Is_refl | now left].
  - unfold Resp.newResponse, Http.ReadAll.
    destruct (Http.read_err (Http.Body r)) as [e|].
    + exists None, (Some (Wrap "failed to read response body" e)). split; [reflexivity|].
      exists "failed to read response body", e.
      repeat split; [apply Is_Wrap, Is_refl | now right].
    + cbn [Resp.StatusCode Resp.Body].
      destruct (Core.checkResponseError (Http.StatusCode r) (Http.read_data (Http.Body r)))
        as [e|] eqn:E'.
      * eexists _, _. split; [reflexivity|]. exact E'.
      * eexists _, _. split; [reflexivity|]. cbn. eapply checkResponseError_None, E'.
Qed.

(** The three transports of the samples, under a client of [NewClient]. *)
Lemma doRequest_after_NewClient_witness :
  exists resp err,
    Core.doRequest (client_over answers_404) sample_request = Core.Return (resp, err)
    /\ match resp, err with
       | Some r, None => Resp.StatusCode r ∈ success_codes
       | Some r, Some e =>
           Core.checkResponseError (Resp.StatusCode r) (Resp.Body r) = Some e
       | None, Some e =>
           exists context cause,
             e = Wrap context cause /\ Is e cause = true
             /\ (context = "failed to perform request"
                 \/ context = "failed to read response body")
       | None, None => False
       end.
Proof.
  apply (doRequest_after_NewClient fails (config_over answers_404)
           (client_over answers_404) sample_request).
  reflexivity.
Defined.

End ClientFacts.

(** ** The query builder: order of the calls, and what [apply] writes *)

Section BuilderFacts.

Import Url QB QuerySpec Upload.

Lemma sets_key (s : setter) (k x : string) : sets s = Some (k, x) -> k = key_of s.
Proof.
  destruct s as [key [b|]|key v|key [|y l]]; cbn [sets key_of]; try discriminate.
  - now intros [= <- _].
  - destruct (String.eqb (TrimSpace v) ""); [discriminate | now intros [= <- _]].
  - now intros [= <- _].
Qed.

Lemma call_swap (q : queryBuilder) (s t : setter) :
  key_of s <> key_of t -> call (call q s) t = call (call q t) s.
Proof.
  intros Hne. rewrite !call_sets.
  destruct (sets s) as [[k x]|] eqn:Es, (sets t) as [[k' x']|] eqn:Et;
    cbn [req values]; rewrite ?Es, ?Et; try reflexivity.
  apply sets_key in Es, Et. subst k k'.
  unfold Set_. f_equal. now apply insert_insert_ne.
Qed.

(** Calls of setters that name different keys can be made in any order: the
    builder ends with the same values, and [apply] writes the same query. *)
Theorem setter_order_irrelevant (q : queryBuilder) (calls calls' : list setter) :
  NoDup (map key_of calls) ->
  calls ≡ₚ calls' ->
  chain q calls = chain q calls'
  /\ rawQuery (apply (chain q calls)) = rawQuery (apply (chain q calls')).
Proof.
  intros Hnd Hp.
  assert (H : chain q calls = chain q calls'); [|now rewrite H].
  revert q Hnd. induction Hp as [|s l l' Hp IH|s t l|l l' l'' Hp1 IH1 Hp2 IH2]; intros q Hnd.
  - reflexivity.
  - cbn [map] in Hnd. apply NoDup_cons in Hnd as [_ Hnd].
    unfold chain in *. cbn [fold_left]. now apply IH.
  - cbn [map] in Hnd. apply NoDup_cons in Hnd as [Hin _].
    unfold chain. cbn [fold_left]. rewrite (call_swap q s t); [reflexivity|].
    intros E. apply Hin. rewrite E. apply list_elem_of_here.
  - rewrite IH1 by assumption. apply IH2.
    assert (Hm : map key_of l ≡ₚ map key_of l') by now apply Permutation_map.
    now rewrite <- Hm.
Qed.

(** Two calls of the upload, in the order of the source and in the other. *)
Lemma setter_order_irrelevant_witness :
  chain (buildQuery sample_request)
    [SetBool "jitEnabled" (Some true); SetString "sourceLanguage" "en"]
  = chain (buildQuery sample_request)
      [SetString "sourceLanguage" "en"; SetBool "jitEnabled" (Some true)]
  /\ rawQuery (apply (chain (buildQuery sample_request)
                 [SetBool "jitEnabled" (Some true); SetString "sourceLanguage" "en"]))
     = rawQuery (apply (chain (buildQuery sample_request)
                   [SetString "sourceLanguage" "en"; SetBool "jitEnabled" (Some true)])).
Proof.
  apply (setter_order_irrelevant (buildQuery sample_request)
           [SetBool "jitEnabled" (Some true); SetString "sourceLanguage" "en"]
           [SetString "sourceLanguage" "en"; SetBool "jitEnabled" (Some true)]).
  - apply (bool_decide_unpack _). vm_compute. reflexivity.
  - apply perm_swap.
Defined.

Lemma upperhex_escaped (c : ascii) :
  escaped_char (upperhex (N_of_ascii c / 16)) = true
  /\ escaped_char (upperhex (N_of_ascii c mod 16)) = true.
Proof. every_byte c; vm_compute; split; reflexivity. Qed.

Lemma QueryEscape_chars (s : string) : all_bytes escaped_char (QueryEscape s) = true.
Proof.
  induction s as [|c s IH]; [reflexivity|].
  cbn [QueryEscape]. destruct (shouldEscape c) eqn:E.
  - destruct (Ascii.eqb c " "); cbn [all_bytes]; rewrite IH.
    + reflexivity.
    + destruct (upperhex_escaped c) as [-> ->]. reflexivity.
  - cbn [all_bytes]. rewrite IH. unfold escaped_char. now rewrite E.
Qed.

Lemma all_bytes_Join (p : ascii -> bool) (l : list string) (sep : string) :
  all_bytes p sep = true -> Forall (fun s => all_bytes p s = true) l ->
  all_bytes p (Join l sep) = true.
Proof.
  intros Hsep. induction 1 as [|s l Hs Hl IH]; [reflexivity|].
  destruct l as [|t l]; [exact Hs|].
  change (Join (s :: t :: l) sep) with (s +:+ sep +:+ Join (t :: l) sep).
  now rewrite !all_bytes_app, Hs, Hsep, IH.
Qed.

Lemma escaped_query (c : ascii) : escaped_char c = true -> query_char c = true.
Proof. unfold query_char. now intros ->. Qed.

(** Whatever the keys and the values are, the query string that [apply]
    writes to the request holds only the unreserved characters, ['%'],
    ['+'], ['='] and ['&']: no space, ['#'], ['?'] or ['/'] gets into the URL
    through a value.  Nothing else of the request is changed, and the values
    of the builder stay. *)
Theorem apply_writes_query_only (q : queryBuilder) :
  all_bytes query_char (rawQuery (apply q)) = true
  /\ Http.Method (req (apply q)) = Http.Method (req q)
  /\ Http.Scheme (Http.ReqURL (req (apply q))) = Http.Scheme (Http.ReqURL (req q))
  /\ Http.Host (Http.ReqURL (req (apply q))) = Http.Host (Http.ReqURL (req q))
  /\ Http.Path (Http.ReqURL (req (apply q))) = Http.Path (Http.ReqURL (req q))
  /\ Http.ReqHeader (req (apply q)) = Http.ReqHeader (req q)
  /\ Http.ReqBody (req (apply q)) = Http.ReqBody (req q)
  /\ values (apply q) = values q.
Proof.
  split; [|now repeat split].
  rewrite rawQuery_apply. unfold Encode.
  apply all_bytes_Join; [reflexivity|].
  apply Forall_forall. intros piece Hin.
  apply list_elem_of_In, in_flat_map in Hin as (k & _ & Hin).
  unfold encode_key in Hin. apply in_map_iff in Hin as (x & <- & _).
  rewrite !all_bytes_app.
  rewrite (all_bytes_weaken escaped_char query_char _ escaped_query (QueryEscape_chars k)).
  rewrite (all_bytes_weaken escaped_char query_char _ escaped_query (QueryEscape_chars x)).
  reflexivity.
Qed.

End BuilderFacts.

(** ** Requests: the headers, the upload and the new video *)

Section RequestFacts.

Import Url QB QuerySpec Upload.

Lemma Header_Get_Set (h : Http.Header) (key value name : string) :
  Header_Get (Header_Set h key value) name
  = if decide (CanonicalMIMEHeaderKey key = CanonicalMIMEHeaderKey name)
    then value else Header_Get h name.
Proof.
  unfold Header_Get, Header_Set.
  destruct (decide _) as [->|Hne].
  - now rewrite lookup_insert_eq.
  - now rewrite lookup_insert_ne.
Qed.

(** What [request] answers when the request maker gives a request. *)
Lemma request_made (newRequest : RequestMaker) (c : Core.Client)
    (method url body contentType : string) (req : Http.Request) :
  newRequest method url body = (Some req, None) ->
  exists made,
    request newRequest c method url body contentType = Core.Return (Some made, None)
    /\ Http.Method made = Http.Method req
    /\ Http.ReqURL made = Http.ReqURL req
    /\ Http.ReqBody made = Http.ReqBody req
    /\ forall name,
         Header_Get (Http.ReqHeader made) name
         = if decide (CanonicalMIMEHeaderKey name = "Content-Type") then
             if String.eqb contentType "" then Header_Get (Http.ReqHeader req) name
             else contentType
           else if decide (CanonicalMIMEHeaderKey name = "User-Agent") then
             Cfg.UserAgent (Core.config c)
           else if decide (CanonicalMIMEHeaderKey name = "Accesskey") then Core.apiKey c
           else Header_Get (Http.ReqHeader req) name.
Proof.
  intros H. unfold request. rewrite H.
  eexists. split; [reflexivity|].
  destruct (String.eqb contentType ""); cbn [negb];
    (repeat split; intros name; cbn [set_header Http.ReqHeader];
     rewrite !Header_Get_Set;
     change (CanonicalMIMEHeaderKey "Content-Type") with "Content-Type";
     change (CanonicalMIMEHeaderKey "User-Agent") with "User-Agent";
     change (CanonicalMIMEHeaderKey "AccessKey") with "Accesskey";
     repeat destruct (decide _); congruence).
Qed.

(** [request] answers a request or an error.  An error of the request maker
    is wrapped, and [errors.Is] would find it.  Otherwise the method, the URL
    and the body are those of the request made; the API key, the user agent
    and, when one is given, the content type are read back by [Header.Get]
    under any spelling of the three names, upper or lower case; the API key
    is kept under the canonical name [Accesskey]; the other headers are
    those of the request made. *)
Theorem request_sets_headers (newRequest : RequestMaker) (c : Core.Client)
    (method url body contentType : string) :
  match newRequest method url body with
  | (_, Some e) =>
      request newRequest c method url body contentType
      = Core.Return (None, Some (Wrap "failed to create request" e))
      /\ ErrIs.Is (Wrap "failed to create request" e) e = true
  | (None, None) => request newRequest c method url body contentType = Core.Panic
  | (Some req, None) =>
      exists made,
        request newRequest c method url body contentType = Core.Return (Some made, None)
        /\ Http.Method made = Http.Method req
        /\ Http.ReqURL made = Http.ReqURL req
        /\ Http.ReqBody made = Http.ReqBody req
        /\ Http.ReqHeader made !! "Accesskey" = Some [Core.apiKey c]
        /\ (forall name, CanonicalMIMEHeaderKey name = "Accesskey" ->
              Header_Get (Http.ReqHeader made) name = Core.apiKey c)
        /\ (forall name, CanonicalMIMEHeaderKey name = "User-Agent" ->
              Header_Get (Http.ReqHeader made) name = Cfg.UserAgent (Core.config c))
        /\ (forall name, CanonicalMIMEHeaderKey name = "Content-Type" ->
              Header_Get (Http.ReqHeader made) name
              = if String.eqb contentType "" then Header_Get (Http.ReqHeader req) name
                else contentType)
        /\ (forall name,
              CanonicalMIMEHeaderKey name <> "Accesskey" ->
              CanonicalMIMEHeaderKey name <> "User-Agent" ->
              CanonicalMIMEHeaderKey name <> "Content-Type" ->
              Header_Get (Http.ReqHeader made) name = Header_Get (Http.ReqHeader req) name)
  end.
Proof.
  destruct (newRequest method url body) as [[req|] [e|]] eqn:E;
    try (unfold request; rewrite E; split; [reflexivity | apply Is_Wrap, Is_refl]).
  - unfold request. rewrite E. eexists. split; [reflexivity|].
    assert (Hget : forall h name, CanonicalMIMEHeaderKey name = name ->
              Header_Get h name = match h !! name with Some (x :: _) => x | _ => "" end).
    { intros h name Hn. unfold Header_Get. now rewrite Hn. }
    destruct (String.eqb contentType ""); cbn [negb];
      (repeat split;
       [ cbn [set_header Http.ReqHeader]; unfold Header_Set;
         change (CanonicalMIMEHeaderKey "Content-Type") with "Content-Type";
         change (CanonicalMIMEHeaderKey "User-Agent") with "User-Agent";
         change (CanonicalMIMEHeaderKey "AccessKey") with "Accesskey";
         rewrite ?lookup_insert_ne by discriminate; apply lookup_insert_eq
       | intros name Hn; cbn [set_header Http.ReqHeader];
         rewrite !Header_Get_Set;
         change (CanonicalMIMEHeaderKey "Content-Type") with "Content-Type";
         change (CanonicalMIMEHeaderKey "User-Agent") with "User-Agent";
         change (CanonicalMIMEHeaderKey "AccessKey") with "Accesskey";
         repeat destruct (decide _); congruence .. ]).
  - unfold request. now rewrite E.
Qed.

Lemma written_cons (s : setter) (rest : list setter) (k : string) :
  written (s :: rest) k
  = match written rest k with
    | Some x => Some x
    | None => if String.eqb (key_of s) k then snd <$> sets s else None
    end.
Proof.
  cbn [written]. destruct (written rest k); [reflexivity|].
  destruct (sets s) as [[k' x]|] eqn:E.
  - apply sets_key in E as ->. now destruct (String.eqb (key_of s) k).
  - now destruct (String.eqb (key_of s) k).
Qed.

Lemma sets_bool (key : string) (v : option bool) :
  snd <$> sets (SetBool key v) = bool_param v.
Proof. now destruct v. Qed.

Lemma sets_strings (key : string) (v : list string) :
  snd <$> sets (SetStrings key v) = list_param v.
Proof. now destruct v. Qed.

Lemma sets_string (key v : string) :
  snd <$> sets (SetString key v) = text_param v.
Proof. cbn [sets]. unfold text_param. now destruct (String.eqb (TrimSpace v) ""). Qed.

(** The calls of the setters in [UploadVideo], in the order of the source. *)
Lemma upload_written (o : UploadVideoOptions) (k : string) :
  written
    [SetBool "jitEnabled" (jitEnabled o);
     SetStrings "enabledResolutions" (enabledResolution o);
     SetStrings "enabledOutputCodecs" (enabledOutputCodecs o);
     SetBool "transcribeEnabled" (transcribeEnabled o);
     SetStrings "transcribeLanguages" (transcribeLanguage o);
     SetString "sourceLanguage" (sourceLanguage o);
     SetBool "generateTitle" (generateTitle o);
     SetBool "generateDescription" (genereateDesc o);
     SetBool "generateChapters" (generateChapter o);
     SetBool "generateMoments" (generateMoments o)] k
  = upload_param o k.
Proof.
  rewrite !written_cons. cbn [written key_of].
  rewrite !sets_bool, !sets_strings, !sets_string.
  unfold upload_param.
  repeat match goal with
  | |- context [String.eqb k ?a] =>
      destruct (String.eqb_spec k a) as [->|?];
      [ rewrite ?String.eqb_refl;
        rewrite ?(proj2 (String.eqb_neq _ _)) by discriminate;
        repeat (destruct (bool_param _) || destruct (list_param _)
                || destruct (text_param _));
        reflexivity |]
  end.
  rewrite ?(proj2 (String.eqb_neq _ _)) by congruence.
  reflexivity.
Qed.

(** With options none of which is [nil], the upload sends the request that
    the request maker has made for [PUT], the URL of the video under the
    library and the file: same method, same body, same scheme, host and path.
    The API key, the user agent and the content type of a byte stream are in
    its headers.  A URL parser reads back from its query string each
    parameter whose option was given, with the value of the option, and for
    the other keys what the query string of the request made held.  The
    answer is the one of [doRequest] for this request, without the response
    when there is an error. *)
Theorem UploadVideo_sends (newRequest : RequestMaker) (c : Core.Client)
    (videoId videoFile : string) (opts : list UploadVideoOption)
    (options : UploadVideoOptions) (req : Http.Request) :
  TrimSpace videoId <> "" ->
  apply_upload_options opts = Core.Return options ->
  newRequest "PUT"
    (Core.baseURL c +:+ "/library/" +:+ Core.libraryID c +:+ "/videos/" +:+ videoId)
    videoFile = (Some req, None) ->
  exists sent,
    UploadVideo newRequest c videoId videoFile opts
    = response_or_error (Core.doRequest c sent)
    /\ Http.Method sent = Http.Method req
    /\ Http.ReqBody sent = Http.ReqBody req
    /\ Http.Scheme (Http.ReqURL sent) = Http.Scheme (Http.ReqURL req)
    /\ Http.Host (Http.ReqURL sent) = Http.Host (Http.ReqURL req)
    /\ Http.Path (Http.ReqURL sent) = Http.Path (Http.ReqURL req)
    /\ Header_Get (Http.ReqHeader sent) "AccessKey" = Core.apiKey c
    /\ Header_Get (Http.ReqHeader sent) "User-Agent" = Cfg.UserAgent (Core.config c)
    /\ Header_Get (Http.ReqHeader sent) "Content-Type" = "application/octet-stream"
    /\ forall k,
         ParseQuery (Http.RawQuery (Http.ReqURL sent)) !! k
         = match upload_param options k with
           | Some x => Some [x]
           | None => ParseQuery (Http.RawQuery (Http.ReqURL req)) !! k
           end.
Proof.
  intros Hv Hopts Hreq.
  destruct (request_made newRequest c "PUT" _ videoFile "application/octet-stream" req Hreq)
    as (made & Hmade & Hm & Hu & Hb & Hh).
  unfold UploadVideo, buildURL.
  destruct (String.eqb_spec (TrimSpace videoId) ""); [contradiction|].
  rewrite Hopts, Hmade.
  set (o := options).
  set (calls :=
         [SetBool "jitEnabled" (jitEnabled o);
          SetStrings "enabledResolutions" (enabledResolution o);
          SetStrings "enabledOutputCodecs" (enabledOutputCodecs o);
          SetBool "transcribeEnabled" (transcribeEnabled o);
          SetStrings "transcribeLanguages" (transcribeLanguage o);
          SetString "sourceLanguage" (sourceLanguage o);
          SetBool "generateTitle" (generateTitle o);
          SetBool "generateDescription" (genereateDesc o);
          SetBool "generateChapters" (generateChapter o);
          SetBool "generateMoments" (generateMoments o)]).
  exists (QB.req (QB.apply (chain (buildQuery made) calls))).
  split; [reflexivity|].
  assert (Hr : QB.req (chain (buildQuery made) calls) = made) by apply chain_req.
  unfold QB.apply at 1 2 3 4 5 6 7 8. cbn [QB.req set_RawQuery Http.Method Http.ReqBody
    Http.ReqURL Http.Scheme Http.Host Http.Path Http.ReqHeader].
  rewrite !Hr, Hm, Hb, Hu, !Hh.
  repeat split.
  intros k. fold (rawQuery (QB.apply (chain (buildQuery made) calls))).
  rewrite rawQuery_apply, ParseQuery_Encode.
  rewrite nonempty_id by apply chain_no_empty, ParseQuery_no_empty.
  rewrite chain_values. unfold calls. rewrite upload_written.
  cbn [buildQuery values]. unfold Query. now rewrite Hu.
Qed.

(** An upload with two options, for a client of the minimal configuration. *)
Lemma UploadVideo_sends_witness :
  exists sent,
    UploadVideo plain_maker (new_client minimal_config) "abc" "data"
      [JITEnabled true; EnabledResolutions ["720p"; "1080p"]]
    = response_or_error (Core.doRequest (new_client minimal_config) sent)
    /\ Http.Method sent = "PUT"
    /\ Http.ReqBody sent = "data"
    /\ Http.Scheme (Http.ReqURL sent) = ""
    /\ Http.Host (Http.ReqURL sent) = ""
    /\ Http.Path (Http.ReqURL sent) = "https://video.bunnycdn.com/library/123/videos/abc"
    /\ Header_Get (Http.ReqHeader sent) "AccessKey" = "test-key"
    /\ Header_Get (Http.ReqHeader sent) "User-Agent" = "bunnystream-go/0.1.0"
    /\ Header_Get (Http.ReqHeader sent) "Content-Type" = "application/octet-stream"
    /\ forall k,
         ParseQuery (Http.RawQuery (Http.ReqURL sent)) !! k
         = match upload_param two_options k with
           | Some x => Some [x]
           | None => ParseQuery "" !! k
           end.
Proof.
  apply (UploadVideo_sends plain_maker (new_client minimal_config) "abc" "data"
           [JITEnabled true; EnabledResolutions ["720p"; "1080p"]]
           two_options
           (Http.mkRequest "PUT"
              (Http.mkURL "" "" "https://video.bunnycdn.com/library/123/videos/abc" "")
              ∅ "data")).
  - now vm_compute.
  - reflexivity.
  - reflexivity.
Defined.

(** The loop over the options panics exactly when one of them is [nil]. *)
Lemma run_options_nil {A : Type} (opts : list (option (A -> A))) (o : A) :
  match run_options opts o with
  | Core.Panic => None ∈ opts
  | Core.Return _ => None ∉ opts
  end.
Proof.
  revert o. induction opts as [|[f|] opts IH]; intros o; cbn [run_options].
  - apply not_elem_of_nil.
  - specialize (IH (f o)). destruct (run_options opts (f o)).
    + now apply list_elem_of_further.
    + rewrite not_elem_of_cons. now split.
  - apply list_elem_of_here.
Qed.

Lemma doRequest_one (c : Core.Client) (req : Http.Request) :
  Core.httpClient c <> None ->
  exists resp err,
    response_or_error (Core.doRequest c req) = Core.Return (resp, err)
    /\ match resp, err with
       | Some r, None => Resp.StatusCode r ∈ success_codes
       | None, Some e => True
       | _, _ => False
       end.
Proof.
  intros Hcl. destruct (Core.httpClient c) as [cl|] eqn:E; [clear Hcl | contradiction].
  unfold Core.doRequest. rewrite E.
  destruct (Http.Do cl req) as [r e|r]; [now eexists _, _|].
  unfold Resp.newResponse, Http.ReadAll.
  destruct (Http.read_err (Http.Body r)) as [e|]; [now eexists _, _|].
  cbn [Resp.StatusCode Resp.Body].
  destruct (Core.checkResponseError (Http.StatusCode r) (Http.read_data (Http.Body r)))
    as [e|] eqn:E'; [now eexists _, _|].
  eexists _, _. split; [reflexivity|]. cbn. eapply checkResponseError_None, E'.
Qed.

(** What the upload and the creation of a video answer when the loop over
    the options has returned. *)
Lemma UploadVideo_one (newRequest : RequestMaker) (c : Core.Client)
    (videoId videoFile : string) (opts : list UploadVideoOption) :
  Core.httpClient c <> None ->
  (forall method url body, newRequest method url body <> (None, None)) ->
  TrimSpace videoId = "" \/ None ∉ opts ->
  exists resp err,
    UploadVideo newRequest c videoId videoFile opts = Core.Return (resp, err)
    /\ match resp, err with
       | Some r, None => Resp.StatusCode r ∈ success_codes
       | None, Some e => True
       | _, _ => False
       end.
Proof.
  intros Hcl Hmk Hin. unfold UploadVideo, apply_upload_options.
  destruct (String.eqb_spec (TrimSpace videoId) "") as [|Hv]; [now eexists _, _|].
  destruct Hin as [|Hin]; [contradiction|].
  pose proof (run_options_nil opts no_options) as Hrun.
  destruct (run_options opts no_options) as [|options]; [contradiction|].
  unfold request.
  destruct (newRequest _ _ _) as [[req|] [e|]] eqn:E;
    try (now eexists _, _); [|now apply Hmk in E].
  cbn [negb String.eqb]. apply (doRequest_one c _ Hcl).
Qed.

Lemma CreateVideoObject_one (encode : JsonEncoder) (newRequest : RequestMaker)
    (c : Core.Client) (title : string) (opts : list VideoOption) :
  Core.httpClient c <> None ->
  (forall method url body, newRequest method url body <> (None, None)) ->
  TrimSpace title = "" \/ None ∉ opts ->
  exists resp err,
    CreateVideoObject encode newRequest c title opts = Core.Return (resp, err)
    /\ match resp, err with
       | Some r, None => Resp.StatusCode r ∈ success_codes
       | None, Some e => True
       | _, _ => False
       end.
Proof.
  intros Hcl Hmk Hin. unfold CreateVideoObject.
  destruct (String.eqb_spec (TrimSpace title) "") as [|Hv]; [now eexists _, _|].
  destruct Hin as [|Hin]; [contradiction|].
  pose proof (run_options_nil opts no_video_options) as Hrun.
  destruct (run_options opts no_video_options) as [|options]; [contradiction|].
  unfold encodeJSON. destruct (encode _) as [buf [e|]]; [now eexists _, _|].
  unfold request.
  destruct (newRequest _ _ _) as [[req|] [e|]] eqn:E;
    try (now eexists _, _); [|now apply Hmk in E].
  cbn [negb String.eqb]. apply (doRequest_one c _ Hcl).
Qed.

(** With a client of [NewClient] and a request maker that answers a request
    or an error, the upload and the creation of a video panic exactly when
    the video id, or the title, is not blank and one of the options is [nil]:
    the loop over the options calls it.  In every other case they return, and
    they answer either a response without an error, whose status is one of
    the four success codes, or an error without a response: the response
    that [doRequest] keeps beside an error is dropped. *)
Theorem calls_answer_one (transport : Http.Request -> Http.DoResult)
    (cfg : Cfg.Config) (c : Core.Client) (newRequest : RequestMaker) :
  Core.NewClient transport (Some cfg) = (Some c, None) ->
  (forall method url body, newRequest method url body <> (None, None)) ->
  (forall videoId videoFile opts,
      match UploadVideo newRequest c videoId videoFile opts with
      | Core.Panic => TrimSpace videoId <> "" /\ None ∈ opts
      | Core.Return (Some r, None) => Resp.StatusCode r ∈ success_codes
      | Core.Return (None, Some e) => True
      | Core.Return _ => False
      end)
  /\ (forall videoId videoFile opts,
        TrimSpace videoId <> "" -> None ∈ opts ->
        UploadVideo newRequest c videoId videoFile opts = Core.Panic)
  /\ (forall encode title opts,
        match CreateVideoObject encode newRequest c title opts with
        | Core.Panic => TrimSpace title <> "" /\ None ∈ opts
        | Core.Return (Some r, None) => Resp.StatusCode r ∈ success_codes
        | Core.Return (None, Some e) => True
        | Core.Return _ => False
        end)
  /\ (forall encode title opts,
        TrimSpace title <> "" -> None ∈ opts ->
        CreateVideoObject encode newRequest c title opts = Core.Panic).
Proof.
  intros H Hmk. apply NewClient_config in H as (_ & _ & Hcl).
  assert (Hup : forall videoId videoFile opts,
             TrimSpace videoId <> "" -> None ∈ opts ->
             UploadVideo newRequest c videoId videoFile opts = Core.Panic).
  { intros videoId videoFile opts Hv Hin. unfold UploadVideo, apply_upload_options.
    destruct (String.eqb_spec (TrimSpace videoId) ""); [contradiction|].
    pose proof (run_options_nil opts no_options) as Hrun.
    destruct (run_options opts no_options); [reflexivity | contradiction]. }
  assert (Hcr : forall encode title opts,
             TrimSpace title <> "" -> None ∈ opts ->
             CreateVideoObject encode newRequest c title opts = Core.Panic).
  { intros encode title opts Hv Hin. unfold CreateVideoObject.
    destruct (String.eqb_spec (TrimSpace title) ""); [contradiction|].
    pose proof (run_options_nil opts no_video_options) as Hrun.
    destruct (run_options opts no_video_options); [reflexivity | contradiction]. }
  split; [|split; [exact Hup|split; [|exact Hcr]]].
  - intros videoId videoFile opts.
    destruct (decide (TrimSpace videoId = "")) as [Hv|Hv].
    + destruct (UploadVideo_one newRequest c videoId videoFile opts Hcl Hmk (or_introl Hv))
        as (resp & err & -> & Hone).
      destruct resp, err; (exact Hone || exact I).
    + assert (Hd : None ∈ opts \/ None ∉ opts).
      { pose proof (run_options_nil opts no_options) as Hrun.
        destruct (run_options opts no_options); [now left | now right]. }
      destruct Hd as [Hin|Hin].
      * now rewrite Hup.
      * destruct (UploadVideo_one newRequest c videoId videoFile opts Hcl Hmk
                    (or_intror Hin)) as (resp & err & -> & Hone).
        destruct resp, err; (exact Hone || exact I).
  - intros encode title opts.
    destruct (decide (TrimSpace title = "")) as [Hv|Hv].
    + destruct (CreateVideoObject_one encode newRequest c title opts Hcl Hmk (or_introl Hv))
        as (resp & err & -> & Hone).
      destruct resp, err; (exact Hone || exact I).
    + assert (Hd : None ∈ opts \/ None ∉ opts).
      { pose proof (run_options_nil opts no_video_options) as Hrun.
        destruct (run_options opts no_video_options); [now left | now right]. }
      destruct Hd as [Hin|Hin].
      * now rewrite Hcr.
      * destruct (CreateVideoObject_one encode newRequest c title opts Hcl Hmk
                    (or_intror Hin)) as (resp & err & -> & Hone).
        destruct resp, err; (exact Hone || exact I).
Qed.

(** The upload over a transport that answers 404: the response is dropped;
    and the upload with a [nil] option. *)
Lemma calls_answer_one_witness :
  UploadVideo plain_maker (client_over answers_404) "abc" "data" []
  = Core.Return (None, Some ErrVideoNotFound)
  /\ UploadVideo plain_maker (client_over answers_404) "abc" "data"
       [JITEnabled true; None] = Core.Panic.
Proof.
  assert (H1 : Core.NewClient fails (Some (config_over answers_404))
               = (Some (client_over answers_404), None)) by reflexivity.
  assert (H2 : forall method url body, plain_maker method url body <> (None, None))
    by discriminate.
  destruct (calls_answer_one fails (config_over answers_404)
              (client_over answers_404) plain_maker H1 H2) as (_ & Hpanic & _).
  split; [reflexivity|].
  apply Hpanic; [now vm_compute|].
  apply list_elem_of_further, list_elem_of_here.
Defined.

(** A blank title is refused before anything is encoded or sent, and before
    the options are called; with a title, the call of a [nil] option panics.
    Otherwise the body that goes to the encoder has the title, the collection
    id and the thumbnail time when the last option that gave one gave a text
    that is not empty, and no other key; an error of the encoder is wrapped
    and returned; and what the encoder has written is the body of a [POST]
    request for the videos of the library, with the content type of JSON,
    whose answer from [doRequest] is passed on without the response when
    there is an error. *)
Theorem CreateVideoObject_sends (encode : JsonEncoder) (newRequest : RequestMaker)
    (c : Core.Client) (title : string) (opts : list VideoOption) :
  let result := CreateVideoObject encode newRequest c title opts in
  if String.eqb (TrimSpace title) "" then
    result = Core.Return (None, Some ErrTitileRequired)
  else
    match run_options opts no_video_options with
    | Core.Panic => result = Core.Panic
    | Core.Return options =>
        exists body : gmap string string,
          body !! "title" = Some title
          /\ body !! "collectionId"
             = (if String.eqb (CollectionID options) "" then None
                else Some (CollectionID options))
          /\ body !! "thumbnailTime"
             = (if String.eqb (ThumbnailTime options) "" then None
                else Some (ThumbnailTime options))
          /\ (forall k, k <> "title" -> k <> "collectionId" -> k <> "thumbnailTime" ->
                body !! k = None)
          /\ match encode body with
             | (_, Some e) =>
                 result = Core.Return (None, Some (Wrap "failed to encode JSON" e))
             | (buf, None) =>
                 result
                 = match request newRequest c "POST"
                           (Core.baseURL c +:+ "/library/" +:+ Core.libraryID c +:+ "/videos")
                           buf "application/json" with
                   | Core.Return (Some req, None) =>
                       response_or_error (Core.doRequest c req)
                   | Core.Return (_, Some err) => Core.Return (None, Some err)
                   | _ => Core.Panic
                   end
             end
    end.
Proof.
  intros result. unfold result, CreateVideoObject, buildURL.
  destruct (String.eqb (TrimSpace title) ""); [reflexivity|].
  destruct (run_options opts no_video_options) as [|options]; [reflexivity|].
  match goal with |- context [encodeJSON encode ?b] => set (body := b) end.
  exists body. repeat split; cycle 4.
  - unfold encodeJSON. destruct (encode body) as [buf [e|]]; [reflexivity|].
    destruct (request _ _ _ _ _ _) as [|[[req|] [e|]]]; reflexivity.
  - unfold body. destruct (String.eqb (CollectionID options) ""),
      (String.eqb (ThumbnailTime options) ""); cbn [negb];
      rewrite ?lookup_insert_ne by discriminate; apply lookup_insert_eq.
  - unfold body. destruct (String.eqb (CollectionID options) ""),
      (String.eqb (ThumbnailTime options) ""); cbn [negb];
      rewrite ?lookup_insert_ne by discriminate;
      rewrite ?lookup_insert_eq, ?lookup_empty; reflexivity.
  - unfold body. destruct (String.eqb (CollectionID options) ""),
      (String.eqb (ThumbnailTime options) ""); cbn [negb];
      rewrite ?lookup_insert_eq; try reflexivity;
      rewrite ?lookup_insert_ne by discriminate;
      rewrite ?lookup_insert_eq, ?lookup_empty; reflexivity.
  - intros k H1 H2 H3. unfold body.
    destruct (String.eqb (CollectionID options) ""),
      (String.eqb (ThumbnailTime options) ""); cbn [negb];
      rewrite ?lookup_insert_ne by congruence; apply lookup_empty.
Qed.

End RequestFacts.
